(** * ExoStack: readiness evaluation, scheduling and the agent control plane

    A shallow embedding of the coordination core of ExoStack:

    - [exo_agent/health_monitor.py]: the power probe, the idle detector and
      the readiness evaluator;
    - [exo_agent/agent.py]: the execute endpoint and the agent main loop;
    - [exo_hub/services/distributed_scheduler.py]: node selection, task
      assignment and the task-queue driver.

    Conventions.  Python floats read from the operating system (battery
    percentage, CPU and memory usage, elapsed seconds) are modelled as
    rationals [Q]: the code only compares them against exact constants and
    subtracts timestamps; the float difference of two [time.time()] stamps
    in the scheduler's cache is a parameter.  Python integers are [Z].  Dictionaries read with
    [d.get(k, default)] are records whose fields are options.  Every reading
    of the operating system is an explicit argument, one per call site. *)

From Stdlib Require Import QArith Lqa ZArith Lia Permutation Sorted.
From stdpp Require Import gmap strings list.

Local Open Scope Z_scope.

(** ** Comparisons on rationals *)

Definition Qltb (x y : Q) : bool := negb (Qle_bool y x).

(** ** The power probe: [LaptopPowerManager] *)

Module Power.

(** What [psutil.sensors_battery()] returns when a battery is present. *)
Record sensor := {
  percent : Q;
  power_plugged_raw : bool;
  secsleft : Z
}.

(** The dictionary built by [get_battery_info]. *)
Record battery_info := {
  on_battery : bool;
  battery_level : Q;
  power_plugged : bool;
  time_left : option Z
}.

(** The dictionary built by [get_compute_limits]. *)
Record compute_limits := {
  max_cpu_usage : Z;
  max_memory_usage : Z;
  max_concurrent_tasks : Z
}.

(** [get_battery_info]: [None] stands for "no battery" as well as for a
    failing sensor call; both fall through to the default dictionary. *)
Definition get_battery_info (s : option sensor) : battery_info :=
  match s with
  | Some b =>
      {| on_battery := negb (power_plugged_raw b);
         battery_level := percent b;
         power_plugged := power_plugged_raw b;
         time_left := if secsleft b =? -1 then None else Some (secsleft b) |}
  | None =>
      {| on_battery := false;
         battery_level := 100;
         power_plugged := true;
         time_left := None |}
  end.

Definition should_throttle_compute (s : option sensor) : bool :=
  let battery_info := get_battery_info s in
  on_battery battery_info && Qltb (battery_level battery_info) 20.

Definition get_compute_limits (s : option sensor) : compute_limits :=
  let battery_info := get_battery_info s in
  if on_battery battery_info then
    if Qltb (battery_level battery_info) 20 then
      {| max_cpu_usage := 30; max_memory_usage := 50; max_concurrent_tasks := 1 |}
    else if Qltb (battery_level battery_info) 50 then
      {| max_cpu_usage := 50; max_memory_usage := 70; max_concurrent_tasks := 2 |}
    else
      {| max_cpu_usage := 70; max_memory_usage := 80; max_concurrent_tasks := 3 |}
  else
    {| max_cpu_usage := 90; max_memory_usage := 90; max_concurrent_tasks := 5 |}.

End Power.

(** ** The idle detector and the readiness evaluator: [HealthMonitor] *)

Module Monitor.
Import Power.

(** [IdleState] dataclass. Timestamps are seconds on the rational line. *)
Record IdleState := {
  is_idle : bool;
  idle_duration : Q;
  cpu_threshold : Q;
  memory_threshold : Q;
  user_active : bool;
  last_activity : Q
}.

(** The attributes of [HealthMonitor] that the idle detector reads and
    writes. *)
Record monitor := {
  idle_threshold_cpu : Q;
  idle_threshold_duration : Q;
  last_user_activity : Q;
  idle_start_time : option Q;
  currently_idle : bool
}.

(** [__init__] at wall-clock time [now]. *)
Definition init (now : Q) : monitor :=
  {| idle_threshold_cpu := 10;
     idle_threshold_duration := 300;
     last_user_activity := now;
     idle_start_time := None;
     currently_idle := false |}.

(** [_check_user_activity]: [Some ms] is the idle time in milliseconds
    reported by the platform (xprintidle, ioreg, GetLastInputInfo); with no
    such reading every path ends in [return True]. *)
Definition _check_user_activity (idle_ms : option Q) : bool :=
  match idle_ms with
  | Some ms => Qltb ms 30000
  | None => true
  end.

(** One pass through the [try] block of [detect_idle_state]. *)
Record reading := {
  r_cpu_usage : Q;
  r_user_active : bool;
  r_memory_usage : Q
}.

(** The input of one call: the readings, or [None] when a probe raised,
    and the value of [datetime.now()]. *)
Record idle_probe := {
  sampled : option reading;
  clock : Q
}.

Definition low_load (m : monitor) (r : reading) : bool :=
  Qltb (r_cpu_usage r) (idle_threshold_cpu m) && Qltb (r_memory_usage r) 70.

Definition with_idle (m : monitor) (lua : Q) (start : option Q) (idle : bool)
  : monitor :=
  {| idle_threshold_cpu := idle_threshold_cpu m;
     idle_threshold_duration := idle_threshold_duration m;
     last_user_activity := lua;
     idle_start_time := start;
     currently_idle := idle |}.

(** The state update of [detect_idle_state] on a successful reading. *)
Definition idle_update (m : monitor) (r : reading) (current_time : Q) : monitor :=
  if r_user_active r then
    with_idle m current_time None false
  else if low_load m r && negb (currently_idle m) then
    match idle_start_time m with
    | None => with_idle m (last_user_activity m) (Some current_time) (currently_idle m)
    | Some t0 =>
        if Qltb (idle_threshold_duration m) (current_time - t0)
        then with_idle m (last_user_activity m) (Some t0) true
        else m
    end
  else if negb (low_load m r) then
    with_idle m (last_user_activity m) None false
  else m.

Definition detect_idle_state (m : monitor) (p : idle_probe) : monitor * IdleState :=
  match sampled p with
  | Some r =>
      let current_time := clock p in
      let m' := idle_update m r current_time in
      let idle_duration :=
        match idle_start_time m' with
        | Some t0 => (current_time - t0)%Q
        | None => 0%Q
        end in
      (m', {| is_idle := currently_idle m';
              idle_duration := idle_duration;
              cpu_threshold := idle_threshold_cpu m';
              memory_threshold := 70;
              user_active := r_user_active r;
              last_activity := last_user_activity m' |})
  | None =>
      (m, {| is_idle := false;
             idle_duration := 0;
             cpu_threshold := idle_threshold_cpu m;
             memory_threshold := 70;
             user_active := true;
             last_activity := clock p |})
  end.

(** Successive calls. [run_idle m ps] lists the monitor after each call. *)
Fixpoint run_idle (m : monitor) (ps : list idle_probe) : list monitor :=
  match ps with
  | [] => []
  | p :: ps' =>
      let m' := fst (detect_idle_state m p) in
      m' :: run_idle m' ps'
  end.

(** *** Score components of [get_ai_compute_readiness] *)

Definition idle_points (i : IdleState) : Z :=
  if is_idle i then
    if Qltb 1800 (idle_duration i) then 40
    else if Qltb 600 (idle_duration i) then 30
    else 20
  else 5.

Definition power_points (b : battery_info) : Z :=
  if negb (on_battery b) then 30
  else if Qltb 80 (battery_level b) then 25
  else if Qltb 50 (battery_level b) then 15
  else if Qltb 20 (battery_level b) then 5
  else 0.

Definition resource_points (cpu_usage memory_usage : Q) : Z :=
  if Qltb cpu_usage 20 && Qltb memory_usage 50 then 30
  else if Qltb cpu_usage 50 && Qltb memory_usage 70 then 20
  else if Qltb cpu_usage 80 && Qltb memory_usage 85 then 10
  else 0.

(** [readiness_score] after the three [if] chains, starting from 0. *)
Definition compute_score (i : IdleState) (b : battery_info)
    (cpu_usage memory_usage : Q) : Z :=
  0 + idle_points i + power_points b + resource_points cpu_usage memory_usage.

(** [_get_compute_recommendations]; it samples CPU and memory again. *)
Definition _get_compute_recommendations (score : Z) (i : IdleState)
    (b : battery_info) (cpu_now mem_now : Q) : list string :=
  let r1 :=
    if score <? 30 then ["System is busy - not ideal for AI compute"%string]
    else if score <? 60 then
      ["System has limited availability - light AI tasks only"%string]
    else [] in
  let r2 :=
    if negb (is_idle i) then
      ["Wait for system to be idle for better performance"%string]
    else if Qltb (idle_duration i) 600 then
      ["System recently active - monitor for stability"%string]
    else [] in
  let r3 :=
    if on_battery b then
      if Qltb (battery_level b) 20 then
        ["Critical battery level - avoid AI compute"%string]
      else if Qltb (battery_level b) 50 then
        ["Consider connecting to power for intensive tasks"%string]
      else []
    else [] in
  let r4 :=
    if Qltb 80 cpu_now then
      ["High CPU usage - may impact AI task performance"%string] else [] in
  let r5 :=
    if Qltb 85 mem_now then
      ["High memory usage - may limit model size"%string] else [] in
  let recommendations := r1 ++ r2 ++ r3 ++ r4 ++ r5 in
  match recommendations with
  | [] => if 60 <=? score then ["System ready for AI compute tasks"%string] else []
  | _ => recommendations
  end.

(** Everything one call of [get_ai_compute_readiness] reads from the
    machine, in the order of the calls. *)
Record probes := {
  p_idle : idle_probe;
  p_battery_info : option sensor;     (* get_battery_info() *)
  p_battery_limits : option sensor;   (* inside get_compute_limits() *)
  p_cpu_usage : Q;
  p_memory_usage : Q;
  p_battery_throttle : option sensor; (* inside should_throttle_compute() *)
  p_cpu_rec : Q;
  p_mem_rec : Q;
  p_gpu_enabled : bool
}.

Record resources := {
  cpu_usage : Q;
  memory_usage : Q;
  gpu_available : bool
}.

(** The dictionary returned by [get_ai_compute_readiness]. *)
Record readiness := {
  ready_for_ai : bool;
  readiness_score : Z;
  idle_state : IdleState;
  power_state : battery_info;
  limits : compute_limits;
  current_resources : resources;
  recommendations : list string
}.

Definition get_ai_compute_readiness (m : monitor) (p : probes)
  : monitor * readiness :=
  let '(m', idle_state) := detect_idle_state m (p_idle p) in
  let battery_info := get_battery_info (p_battery_info p) in
  let compute_limits := get_compute_limits (p_battery_limits p) in
  let readiness_score :=
    compute_score idle_state battery_info (p_cpu_usage p) (p_memory_usage p) in
  let ready_for_ai :=
    (60 <=? readiness_score) &&
    negb (should_throttle_compute (p_battery_throttle p)) in
  (m', {| ready_for_ai := ready_for_ai;
          readiness_score := readiness_score;
          idle_state := idle_state;
          power_state := battery_info;
          limits := compute_limits;
          current_resources :=
            {| cpu_usage := p_cpu_usage p;
               memory_usage := p_memory_usage p;
               gpu_available := p_gpu_enabled p |};
          recommendations :=
            _get_compute_recommendations readiness_score idle_state
              battery_info (p_cpu_rec p) (p_mem_rec p) |}).

(** *** The score table, row by row *)

(** A row of the table: whether it applies, and the points it gives. *)
Definition row : Type := bool * Z.

Definition spec_idle_rows (i : IdleState) : list row :=
  [ (is_idle i && Qltb 1800 (idle_duration i), 40);
    (is_idle i && Qltb 600 (idle_duration i), 30);
    (is_idle i, 20);
    (negb (is_idle i), 5) ].

Definition spec_power_rows (b : battery_info) : list row :=
  [ (negb (on_battery b), 30);
    (on_battery b && Qltb 80 (battery_level b), 25);
    (on_battery b && Qltb 50 (battery_level b), 15);
    (on_battery b && Qltb 20 (battery_level b), 5) ].

Definition spec_resource_rows (cpu mem : Q) : list row :=
  [ (Qltb cpu 20 && Qltb mem 50, 30);
    (Qltb cpu 50 && Qltb mem 70, 20);
    (Qltb cpu 80 && Qltb mem 85, 10) ].

(** The best-matching row: the most points among the rows that apply, and
    nothing when no row applies. *)
Fixpoint best_row (rows : list row) : Z :=
  match rows with
  | [] => 0
  | (applies, pts) :: rest =>
      if applies then Z.max pts (best_row rest) else best_row rest
  end.

End Monitor.

(** ** Python's stable sort *)

Module Sorting.
Section StableSort.
Context {A : Type}.
Variable le : A -> A -> bool.

(** [x] was in front of every element of [l] before sorting, so it goes
    in front of the first element it does not exceed. *)
Fixpoint insert_stable (x : A) (l : list A) : list A :=
  match l with
  | [] => [x]
  | y :: r => if le x y then x :: y :: r else y :: insert_stable x r
  end.

(** [sorted(l, key=...)] and [l.sort(key=...)]: elements that compare
    equal keep their original order, also under [reverse=True]. *)
Definition sorted (l : list A) : list A := foldr insert_stable [] l.

(** The earliest element of [l] satisfying [P] that no other element
    satisfying [P] strictly precedes in the order. *)
Fixpoint first_best (P : A -> bool) (l : list A) : option A :=
  match l with
  | [] => None
  | x :: r =>
      if P x then
        match first_best P r with
        | Some y => if le x y then Some x else Some y
        | None => Some x
        end
      else first_best P r
  end.

(** The order as a relation, and the elements sharing the key of [a]. *)
Definition holds (x y : A) : Prop := le x y = true.

Definition same_key (a y : A) : bool := le a y && le y a.
End StableSort.
End Sorting.

(** ** The hub scheduler: [DistributedScheduler] *)

Module Scheduler.
Import Sorting.

(** A node dictionary as handed out by the registry and annotated by
    [_get_ai_ready_nodes]. Fields read with [node.get] are options. *)
Record node := {
  id : string;
  host : option string;
  port : option Z;
  readiness_score : option Z;
  gpu_available : option bool;
  max_concurrent_tasks : option Z;
  current_load : option Z
}.

(** A task dictionary of the registry; the [Task] model built from it keeps the
    fields. [task_type] is absent when the model has no such attribute. *)
Record task := {
  task_id : string;
  task_type : option string;
  priority : option Z;
  created_at : option string
}.

Inductive TaskStatus := PENDING | RUNNING | COMPLETED | FAILED.

Definition score (n : node) : Z := default 0 (readiness_score n).

(** [str.lower] on ASCII letters. *)
Definition lower_ascii (c : Ascii.ascii) : Ascii.ascii :=
  let n := Ascii.nat_of_ascii c in
  if (65 <=? n)%nat && (n <=? 90)%nat then Ascii.ascii_of_nat (n + 32) else c.

Fixpoint lower (s : string) : string :=
  match s with
  | EmptyString => EmptyString
  | String c r => String (lower_ascii c) (lower r)
  end.

Definition _node_meets_requirements (n : node) (task_type : string) : bool :=
  let readiness_score := default 0 (readiness_score n) in
  let gpu_available := default false (gpu_available n) in
  let max_concurrent := default 1 (max_concurrent_tasks n) in
  let current_load := default 0 (current_load n) in
  if readiness_score <? 60 then false
  else if (bool_decide (task_type = "gpu_inference"%string)
           || bool_decide (task_type = "training"%string))
          && negb gpu_available then false
  else if max_concurrent <=? current_load then false
  else true.

(** Key order of [sorted(..., key=readiness_score, reverse=True)]. *)
Definition score_desc (n m : node) : bool := score m <=? score n.

Definition effective_task_type (t : task) : string :=
  match task_type t with
  | Some ty => lower ty
  | None => "general"%string
  end.

(** [_select_optimal_ai_node], given what [_get_ai_ready_nodes] returned. *)
Definition _select_optimal_ai_node (t : task) (available_nodes : list node)
  : option node :=
  match available_nodes with
  | [] => None
  | _ =>
      let sorted_nodes := sorted score_desc available_nodes in
      let task_type := effective_task_type t in
      match find (fun n => _node_meets_requirements n task_type) sorted_nodes with
      | Some n => Some n
      | None => head sorted_nodes
      end
  end.

(** *** The order the selection is claimed to use *)

(** Score descending, then load ascending, then id. *)
Definition claimed_before (n m : node) : bool :=
  (score m <? score n)
  || ((score m =? score n)
      && ((default 0 (current_load n) <? default 0 (current_load m))
          || ((default 0 (current_load n) =? default 0 (current_load m))
              && String.leb (id n) (id m)))).

(** Selection as worded: first qualifying node in the claimed order, else
    the first node of that order. *)
Definition claimed_select (t : task) (available_nodes : list node)
  : option node :=
  let sorted_nodes := sorted claimed_before available_nodes in
  match find (fun n => _node_meets_requirements n (effective_task_type t))
             sorted_nodes with
  | Some n => Some n
  | None => head sorted_nodes
  end.

(** *** Dispatch *)

(** What the POST to [/tasks/execute] produced. *)
Inductive execute_reply :=
  | Reply200 (status : option string)   (* JSON body, its "status" field *)
  | ReplyOther (code : Z)               (* any other HTTP status *)
  | TransportError.                     (* timeout, refused, invalid body *)

Definition _send_task_to_node (n : node) (reply : execute_reply) : bool :=
  match host n, port n with
  | Some _, Some _ =>
      match reply with
      | Reply200 status =>
          if bool_decide (status = Some "rejected"%string) then false else true
      | ReplyOther _ => false
      | TransportError => false
      end
  | _, _ => false  (* KeyError, caught *)
  end.

(** Hub-side readiness snapshot kept in the cache. *)
Record snapshot := {
  s_ready_for_ai : option bool;
  s_readiness_score : option Z
}.

Section WithRegistry.
(** The registry module is a collaborator: its state and
    [update_task_status(task_id, status, node_id=None)] are parameters. *)
Variable registry : Type.
Variable update_task_status :
  string -> TaskStatus -> option string -> registry -> registry.

Record scheduler := {
  reg : registry;
  task_assignments : gmap string string;
  ai_readiness_cache : gmap string (snapshot * Q)
}.

Definition _assign_task_to_node (r : registry) (t : task) (n : node)
    (reply : execute_reply) : registry * bool :=
  let r1 := update_task_status (task_id t) RUNNING (Some (id n)) r in
  let success := _send_task_to_node n reply in
  if success then (r1, true)
  else (update_task_status (task_id t) PENDING None r1, false).

(** [schedule_task]; [available_nodes] is the result of
    [_get_ai_ready_nodes] and [s] the scheduler once that call is over. *)
Definition schedule_task (s : scheduler) (t : task)
    (available_nodes : list node) (reply : execute_reply)
  : scheduler * bool :=
  match _select_optimal_ai_node t available_nodes with
  | None => (s, false)
  | Some best_node =>
      let '(r', success) := _assign_task_to_node (reg s) t best_node reply in
      let assignments :=
        if success then <[task_id t := id best_node]> (task_assignments s)
        else task_assignments s in
      ({| reg := r';
          task_assignments := assignments;
          ai_readiness_cache := ai_readiness_cache s |}, success)
  end.
End WithRegistry.

Arguments reg {registry} _.
Arguments task_assignments {registry} _.
Arguments ai_readiness_cache {registry} _.

(** Modelled from the spec: the registry's task table (registry.py is not
    part of the sources); [update_task_status(id, status, node?)] records
    the status and the assigned node of a task. *)
Definition task_table := gmap string (TaskStatus * option string).

Definition table_update_task_status (tid : string) (st : TaskStatus)
    (nid : option string) (r : task_table) : task_table :=
  <[tid := (st, nid)]> r.

(** *** The task-queue driver *)

Definition task_key_le (x y : task) : bool :=
  let px := default 0 (priority x) in
  let py := default 0 (priority y) in
  (px <? py)
  || ((px =? py)
      && String.leb (default ""%string (created_at x))
                    (default ""%string (created_at y))).

(** The tasks handed to [schedule_task] during one pass of the [for] loop;
    [running k] is the value of [self.running] at the [k]-th check. *)
Fixpoint scheduled_while (running : nat -> bool) (k : nat) (l : list task)
  : list task :=
  match l with
  | [] => []
  | t :: r => if running k then t :: scheduled_while running (S k) r else []
  end.

Definition _process_task_queue_tick (running : nat -> bool)
    (pending_tasks : list task) : list task :=
  scheduled_while running 0 (sorted task_key_le pending_tasks).

(** Order as claimed: priority descending, then creation time ascending. *)
Definition claimed_task_le (x y : task) : bool :=
  let px := default 0 (priority x) in
  let py := default 0 (priority y) in
  (py <? px)
  || ((px =? py)
      && String.leb (default ""%string (created_at x))
                    (default ""%string (created_at y))).

End Scheduler.

(** ** The agent: the execute endpoint and the main loop *)

Module Agent.
Import Power Monitor.

(** The task dictionary posted to [/tasks/execute]; [td_body] stands for
    the fields the endpoint does not look at. *)
Record task_data := {
  td_id : option string;
  td_body : string;
  td_compute_limits : option compute_limits
}.

(** Values stored in a response dictionary. *)
Inductive value (Res : Type) :=
  | VStr (s : string)
  | VInt (z : Z)
  | VNum (q : Q)
  | VStrs (l : list string)
  | VLimits (c : compute_limits)
  | VResult (r : Res).

Arguments VStr {Res} _.
Arguments VInt {Res} _.
Arguments VNum {Res} _.
Arguments VStrs {Res} _.
Arguments VLimits {Res} _.
Arguments VResult {Res} _.

(** What the endpoint does besides answering. *)
Inductive effect :=
  | ProcessTask (td : task_data)   (* inference_engine.process_task *)
  | RecordTask (task_id : option string) (status : string) (duration : Q).

Section Execute.
Context {Res : Type}.
(** The inference engine: a result, or the text of the exception. *)
Variable process_task : task_data -> Res + string.

Definition response := list (string * value Res).

(** [execute_task]; [start_time] and [end_time] are the two readings of
    [time.time()]. *)
Definition execute_task (m : monitor) (p : probes) (td : task_data)
    (start_time end_time : Q) : monitor * response * list effect :=
  let '(m', readiness) := get_ai_compute_readiness m p in
  if negb (ready_for_ai readiness) then
    (m',
     [("status"%string, VStr "rejected");
      ("error"%string, VStr "System not ready for AI compute");
      ("readiness_score"%string, VInt (readiness_score readiness));
      ("recommendations"%string, VStrs (recommendations readiness))],
     [])
  else
    let task_id := td_id td in
    let compute_limits := limits readiness in
    let td' := {| td_id := td_id td; td_body := td_body td;
                  td_compute_limits := Some compute_limits |} in
    let duration := (end_time - start_time)%Q in
    match process_task td' with
    | inl result =>
        (m',
         [("status"%string, VStr "completed");
          ("result"%string, VResult result);
          ("duration"%string, VNum duration);
          ("compute_limits_used"%string, VLimits compute_limits)],
         [ProcessTask td'; RecordTask task_id "completed" duration])
    | inr e =>
        (m',
         [("status"%string, VStr "failed");
          ("error"%string, VStr e);
          ("duration"%string, VNum duration)],
         [ProcessTask td'; RecordTask task_id "failed" duration])
    end.
End Execute.

(** Lookup of a key in a response dictionary. *)
Fixpoint field {Res : Type} (k : string) (r : list (string * value Res))
  : option (value Res) :=
  match r with
  | [] => None
  | (k', v) :: r' => if bool_decide (k' = k) then Some v else field k r'
  end.

Definition engine_called (es : list effect) : bool :=
  existsb (fun e => match e with ProcessTask _ => true | _ => false end) es.

Definition carries_limits {Res : Type} (r : list (string * value Res)) : bool :=
  existsb (fun kv => match snd kv with VLimits _ => true | _ => false end) r.

(** *** [main_loop] *)

Inductive event :=
  | Heartbeat (ok : bool)
  | Register (ok : bool).

(** The results of [heartbeat] and, if it is called, of [register_agent]
    during one iteration. Both functions catch their own exceptions. *)
Record tick_input := {
  hb_ok : bool;
  reg_ok : bool
}.

Definition max_consecutive_failures : Z := 5.

(** One iteration of the [while True] body, on the failure counter. *)
Definition tick (consecutive_failures : Z) (i : tick_input) : Z * list event :=
  if hb_ok i then (0, [Heartbeat true])
  else
    let consecutive_failures := consecutive_failures + 1 in
    if max_consecutive_failures <=? consecutive_failures
    then (0, [Heartbeat false; Register (reg_ok i)])
    else (consecutive_failures, [Heartbeat false]).

(** The loop over the iterations that take place; [None] is the
    [KeyboardInterrupt] that breaks out of it. *)
Fixpoint loop (c : Z) (inputs : list (option tick_input)) : list (list event) :=
  match inputs with
  | [] => []
  | None :: _ => []
  | Some i :: rest => let '(c', ev) := tick c i in ev :: loop c' rest
  end.

(** [main_loop]: a failed registration at start-up returns at once. *)
Definition main_loop (startup_ok : bool) (inputs : list (option tick_input))
  : list (list event) :=
  if startup_ok then loop 0 inputs else [].

Definition is_register (e : event) : bool :=
  match e with Register _ => true | Heartbeat _ => false end.

Definition registrations (ev : list event) : nat :=
  length (List.filter is_register ev).

Definition reregisters (ev : list event) : bool := existsb is_register ev.

End Agent.

(** ** Sample data *)

Module Samples.
Import Power Monitor Scheduler Agent.

Definition mk_node (name : string) (sc load : Z) (gpu : bool) : node :=
  {| id := name; host := Some "10.0.0.7"%string; port := Some 8001;
     readiness_score := Some sc; gpu_available := Some gpu;
     max_concurrent_tasks := Some 5; current_load := Some load |}.

(** Two ready laptops with the same score; [node_a] is the busier one and
    comes first in the registry. *)
Definition node_a : node := mk_node "a" 80 1 false.
Definition node_b : node := mk_node "b" 80 0 false.

Definition task_low : task :=
  {| task_id := "t1"; task_type := Some "text-generation"%string;
     priority := Some 1; created_at := Some "2024-01-01T00:00:00"%string |}.

Definition task_high : task :=
  {| task_id := "t2"; task_type := Some "text-generation"%string;
     priority := Some 5; created_at := Some "2024-01-02T00:00:00"%string |}.

Definition always_running (k : nat) : bool := true.

Definition snapshot_b : snapshot :=
  {| s_ready_for_ai := Some true; s_readiness_score := Some 80 |}.

Definition scheduler0 : scheduler task_table :=
  {| reg := {[ "t1"%string := (PENDING, None) ]};
     task_assignments := ∅;
     ai_readiness_cache := {[ "b"%string := (snapshot_b, 0%Q) ]} |}.

Definition rejected : execute_reply := Reply200 (Some "rejected"%string).

(** A laptop on battery at 15 percent, in use, CPU 60 and memory 75. *)
Definition low_battery : option sensor :=
  Some {| percent := 15; power_plugged_raw := false; secsleft := 1200 |}.

Definition busy_probe : idle_probe :=
  {| sampled := Some {| r_cpu_usage := 60; r_user_active := true;
                        r_memory_usage := 75 |};
     clock := 100 |}.

Definition probes_low_battery : probes :=
  {| p_idle := busy_probe;
     p_battery_info := low_battery;
     p_battery_limits := low_battery;
     p_cpu_usage := 60; p_memory_usage := 75;
     p_battery_throttle := low_battery;
     p_cpu_rec := 60; p_mem_rec := 75;
     p_gpu_enabled := false |}.

(** A laptop on mains power, idle for 20 minutes, CPU 5 and memory 30. *)
Definition idle_monitor : monitor := with_idle (init 0) 0 (Some 0%Q) true.

Definition idle_probe_20min : idle_probe :=
  {| sampled := Some {| r_cpu_usage := 5; r_user_active := false;
                        r_memory_usage := 30 |};
     clock := 1200 |}.

Definition probes_plugged : probes :=
  {| p_idle := idle_probe_20min;
     p_battery_info := None;
     p_battery_limits := None;
     p_cpu_usage := 5; p_memory_usage := 30;
     p_battery_throttle := None;
     p_cpu_rec := 5; p_mem_rec := 30;
     p_gpu_enabled := false |}.

(** On battery at 60 percent with a quiet machine. *)
Definition half_battery : option sensor :=
  Some {| percent := 60; power_plugged_raw := false; secsleft := 7200 |}.

Definition probes_half_battery : probes :=
  {| p_idle := busy_probe;
     p_battery_info := half_battery;
     p_battery_limits := half_battery;
     p_cpu_usage := 5; p_memory_usage := 30;
     p_battery_throttle := half_battery;
     p_cpu_rec := 5; p_mem_rec := 30;
     p_gpu_enabled := false |}.

(** A monitor whose idle session started at time 0, and a quiet sample
    taken 400 seconds later. *)
Definition waiting : monitor := with_idle (init 0) 0 (Some 0%Q) false.

Definition quiet_probe : idle_probe :=
  {| sampled := Some {| r_cpu_usage := 3; r_user_active := false;
                        r_memory_usage := 40 |};
     clock := 400 |}.

(** The waiting monitor sampled quiet at time [t], on mains power. *)
Definition probes_waiting_at (t : Q) : probes :=
  {| p_idle := {| sampled := sampled quiet_probe; clock := t |};
     p_battery_info := None;
     p_battery_limits := None;
     p_cpu_usage := 3; p_memory_usage := 40;
     p_battery_throttle := None;
     p_cpu_rec := 3; p_mem_rec := 40;
     p_gpu_enabled := false |}.

Definition request : task_data :=
  {| td_id := Some "t1"%string; td_body := "prompt"%string;
     td_compute_limits := None |}.

Definition echo_engine (td : task_data) : string + string := inl (td_body td).

Definition failing : tick_input := {| hb_ok := false; reg_ok := false |}.

End Samples.

(** ** Bounded buffers of the health monitor *)

Module Buffers.

(** The slice [l[-n:]]: the last [n] elements for a positive [n], the
    whole list for [n = 0], and [l] without its first [-n] elements for a
    negative [n]. *)
Definition py_last {A : Type} (n : Z) (l : list A) : list A :=
  if 0 <? n then drop (length l - Z.to_nat n) l
  else drop (Z.to_nat (- n)) l.

(** [MetricSample] dataclass. *)
Record MetricSample := {
  timestamp : Q;
  value : Q;
  metric_type : string
}.

(** [MetricsBuffer]: the sample lists by metric name. *)
Record MetricsBuffer := {
  max_samples : Z;
  samples : gmap string (list MetricSample)
}.

(** [MetricsBuffer(max_samples)]. *)
Definition new_buffer (n : Z) : MetricsBuffer :=
  {| max_samples := n; samples := ∅ |}.

(** [add_sample]; [now] is the reading of [time.time()]. *)
Definition add_sample (b : MetricsBuffer) (name : string) (v now : Q)
  : MetricsBuffer :=
  let current := default [] (samples b !! name) in
  let appended :=
    current ++ [{| timestamp := now; value := v; metric_type := name |}] in
  let kept :=
    if max_samples b <? Z.of_nat (length appended)
    then py_last (max_samples b) appended
    else appended in
  {| max_samples := max_samples b; samples := <[name := kept]> (samples b) |}.

Definition get_metrics (b : MetricsBuffer) (name : string) : list MetricSample :=
  default [] (samples b !! name).

(** Successive calls of [add_sample], oldest first. *)
Definition add_samples (b : MetricsBuffer) (xs : list MetricSample)
  : MetricsBuffer :=
  foldl (fun b x => add_sample b (metric_type x) (value x) (timestamp x)) b xs.

(** An entry of [task_history]. *)
Record task_record := {
  tr_task_id : option string;
  tr_status : string;
  tr_duration : Q;
  tr_timestamp : Q
}.

(** The [task_history] and [max_history] attributes of [HealthMonitor]. *)
Record task_log := {
  max_history : Z;
  task_history : list task_record
}.

(** As set by [__init__]. *)
Definition new_log : task_log := {| max_history := 1000; task_history := [] |}.

(** [record_task]. *)
Definition record_task (g : task_log) (r : task_record) : task_log :=
  let appended := task_history g ++ [r] in
  {| max_history := max_history g;
     task_history :=
       if max_history g <? Z.of_nat (length appended)
       then py_last (max_history g) appended
       else appended |}.

Definition record_tasks (g : task_log) (rs : list task_record) : task_log :=
  foldl record_task g rs.

(** [_get_overall_status]; [None] when reading CPU or memory raises. *)
Definition _get_overall_status (usage : option (Q * Q)) : string :=
  match usage with
  | Some (cpu_usage, memory_usage) =>
      if Qltb 90 cpu_usage || Qltb 90 memory_usage then "critical"
      else if Qltb 70 cpu_usage || Qltb 70 memory_usage then "warning"
      else "healthy"
  | None => "unknown"
  end.

(** How bad a status is. *)
Definition severity (status : string) : Z :=
  if bool_decide (status = "critical"%string) then 2
  else if bool_decide (status = "warning"%string) then 1
  else 0.

End Buffers.

(** ** The readiness cache of the scheduler *)

Module Cache.
Import Scheduler.

(** [self.readiness_cache_ttl], in seconds. *)
Definition readiness_cache_ttl : Q := 30.

(** What the GET of [/ai-readiness] produced: a status code with the body,
    or an exception. A body is [None] when it does not decode (an
    exception too), [Some None] when it is the JSON value null, which
    [response.json()] returns as Python's [None], and [Some (Some v)]
    for any other value. *)
Inductive fetch_reply (V : Type) :=
  | FetchReply (code : Z) (body : option (option V))
  | FetchError.

Arguments FetchReply {V} _ _.
Arguments FetchError {V}.

Section WithSnapshot.
Context {V : Type}.

(** The stamps of [time.time()] are floats, and so is their difference:
    [fsub a b] stands for the float [a - b], which is the exact difference
    rounded. *)
Variable fsub : Q -> Q -> Q.

(** [_get_ai_readiness]; [registry_node] is the result of
    [registry.get_node(node_id)]. A cached or fetched null is returned as
    it is, that is, as [None]. *)
Definition _get_ai_readiness (cache : gmap string (option V * Q))
    (node_id : string) (current_time : Q) (registry_node : option node)
    (reply : fetch_reply V)
  : gmap string (option V * Q) * option V :=
  let fetch :=
    match registry_node with
    | None => (cache, None)
    | Some n =>
        match host n, port n with
        | Some _, Some _ =>
            match reply with
            | FetchReply code body =>
                if code =? 200 then
                  match body with
                  | Some readiness =>
                      (<[node_id := (readiness, current_time)]> cache,
                       readiness)
                  | None => (cache, None)
                  end
                else (cache, None)
            | FetchError => (cache, None)
            end
        | _, _ => (cache, None)
        end
    end in
  match cache !! node_id with
  | Some (cached_readiness, cached_time) =>
      if Qltb (fsub current_time cached_time) readiness_cache_ttl
      then (cache, cached_readiness)
      else fetch
  | None => fetch
  end.

(** One pass of [_cleanup_readiness_cache] at time [current_time]. *)
Definition _cleanup_readiness_cache (cache : gmap string (option V * Q))
    (current_time : Q) : gmap string (option V * Q) :=
  filter (fun kv =>
            Qltb readiness_cache_ttl (fsub current_time (snd (snd kv))) = false)
         cache.

End WithSnapshot.

(** The readiness dictionary as the hub reads it. *)
Record hub_readiness := {
  h_ready_for_ai : option bool;
  h_readiness_score : option Z;
  h_gpu_available : option bool   (* current_resources.gpu_available *)
}.

(** A node of [registry.get_all_nodes()]. *)
Record registry_node := {
  status : option string;
  info : node
}.

(** What the world answers while one node is looked at. *)
Record lookup_world := {
  w_time : Q;
  w_node : option node;
  w_reply : fetch_reply hub_readiness
}.

(** The fields [_get_ai_ready_nodes] writes into the node dictionary that
    the selection reads. *)
Definition annotate (n : node) (r : hub_readiness) : node :=
  {| id := id n; host := host n; port := port n;
     readiness_score := Some (default 0 (h_readiness_score r));
     gpu_available := Some (default false (h_gpu_available r));
     max_concurrent_tasks := max_concurrent_tasks n;
     current_load := current_load n |}.

Definition online (rn : registry_node) : bool :=
  bool_decide (status rn = Some "online"%string).

Section Scan.
Variable fsub : Q -> Q -> Q.

(** [_get_ai_ready_nodes]: the cache is threaded through the lookups. *)
Fixpoint _get_ai_ready_nodes (cache : gmap string (option hub_readiness * Q))
    (all_nodes : list (registry_node * lookup_world))
  : gmap string (option hub_readiness * Q) * list node :=
  match all_nodes with
  | [] => (cache, [])
  | (rn, w) :: rest =>
      if negb (online rn) then _get_ai_ready_nodes cache rest
      else
        let '(cache', readiness) :=
          _get_ai_readiness fsub cache (id (info rn)) (w_time w) (w_node w)
            (w_reply w) in
        match readiness with
        | Some r =>
            if default false (h_ready_for_ai r) then
              let '(cache'', ready) := _get_ai_ready_nodes cache' rest in
              (cache'', annotate (info rn) r :: ready)
            else _get_ai_ready_nodes cache' rest
        | None => _get_ai_ready_nodes cache' rest
        end
  end.

(** [n] is the annotated copy of a registry node that is online and for
    which the lookup, made with the cache as the scan of the nodes in front
    left it, handed out a readiness that says ready. *)
Definition candidate_of (cache : gmap string (option hub_readiness * Q))
    (all_nodes : list (registry_node * lookup_world)) (n : node) : Prop :=
  exists pre rn w post r,
    all_nodes = pre ++ (rn, w) :: post
    /\ status rn = Some "online"%string
    /\ snd (_get_ai_readiness fsub (fst (_get_ai_ready_nodes cache pre))
              (id (info rn)) (w_time w) (w_node w) (w_reply w)) = Some r
    /\ h_ready_for_ai r = Some true
    /\ n = annotate (info rn) r.

End Scan.

End Cache.

(** ** Counting heartbeats *)

Module Heartbeat.
Import Monitor Agent.

(** The failure counter after the iterations of [loop]. *)
Fixpoint counter_after (c : Z) (inputs : list tick_input) : Z :=
  match inputs with
  | [] => c
  | i :: rest => counter_after (fst (tick c i)) rest
  end.

Definition failed_heartbeats (inputs : list tick_input) : nat :=
  length (List.filter (fun i => negb (hb_ok i)) inputs).

Definition total_registrations (trace : list (list event)) : nat :=
  length (List.filter reregisters trace).

End Heartbeat.

(** ** More sample data *)

Module MoreSamples.
Import Power Monitor Scheduler Agent Buffers Cache Samples.

Definition sample (name : string) (v now : Q) : MetricSample :=
  {| timestamp := now; value := v; metric_type := name |}.

(** Three CPU samples with a memory sample in between. *)
Definition four_samples : list MetricSample :=
  [sample "cpu_usage" 10 1; sample "cpu_usage" 20 2;
   sample "memory_usage" 40 2; sample "cpu_usage" 30 3].

Definition done_record (name : string) (now : Q) : task_record :=
  {| tr_task_id := Some name; tr_status := "completed";
     tr_duration := 1; tr_timestamp := now |}.

Definition three_records : list task_record :=
  [done_record "t1" 1; done_record "t2" 2; done_record "t3" 3].

Definition quiet_reading : reading :=
  {| r_cpu_usage := 5; r_user_active := false; r_memory_usage := 30 |}.

Definition ready_report : hub_readiness :=
  {| h_ready_for_ai := Some true; h_readiness_score := Some 80;
     h_gpu_available := Some false |}.

(** The registry lists node b as online, and its agent answers the
    readiness request at time 5. *)
Definition registry_scan : list (registry_node * lookup_world) :=
  [({| status := Some "online"%string; info := node_b |},
    {| w_time := 5; w_node := Some node_b;
       w_reply := FetchReply 200 (Some (Some ready_report)) |})].

Definition empty_cache : gmap string (option hub_readiness * Q) := ∅.

End MoreSamples.

(** * Properties *)

(** ** Rational comparisons *)

Lemma Qltb_lt (x y : Q) : Qltb x y = true <-> (x < y)%Q.
Proof.
  unfold Qltb. rewrite negb_true_iff. split.
  - intros H. apply Qnot_le_lt. intros Hle.
    apply Qle_bool_iff in Hle. congruence.
  - intros H. destruct (Qle_bool y x) eqn:E; [|reflexivity].
    apply Qle_bool_iff in E. lra.
Qed.

Lemma Qltb_ge (x y : Q) : Qltb x y = false <-> (y <= x)%Q.
Proof.
  unfold Qltb. rewrite negb_false_iff. apply Qle_bool_iff.
Qed.

(** Case analysis on every rational comparison in the goal. *)
Ltac qcases :=
  repeat match goal with
  | |- context [Qltb ?a ?b] =>
      let E := fresh "E" in
      destruct (Qltb a b) eqn:E;
      [apply Qltb_lt in E | apply Qltb_ge in E]
  end.

(** ** The power probe *)

Section PowerFacts.
Import Power.

(** C4: the compute limits follow the four-row table of the power probe:
    mains gives 90/90/5; on battery, a level of at least 50 gives 70/80/3,
    a level in [20,50) gives 50/70/2 and a level below 20 gives 30/50/1. *)
Theorem get_compute_limits_table (s : option sensor) :
  let b := get_battery_info s in
  let mk c m t :=
    {| max_cpu_usage := c; max_memory_usage := m; max_concurrent_tasks := t |} in
  (on_battery b = false /\ get_compute_limits s = mk 90 90 5)
  \/ (on_battery b = true /\ (50 <= battery_level b)%Q
      /\ get_compute_limits s = mk 70 80 3)
  \/ (on_battery b = true /\ (20 <= battery_level b)%Q
      /\ (battery_level b < 50)%Q /\ get_compute_limits s = mk 50 70 2)
  \/ (on_battery b = true /\ (battery_level b < 20)%Q
      /\ get_compute_limits s = mk 30 50 1).
Proof.
  intros b mk. unfold get_compute_limits. fold b.
  destruct (on_battery b); [|left; auto].
  right. qcases.
  - right. right. auto.
  - right. left. auto.
  - left. split; [reflexivity|]. split; [lra|reflexivity].
Qed.

(** Without a battery the probe reports mains power at level 100. *)
Lemma get_battery_info_no_battery :
  on_battery (get_battery_info None) = false
  /\ (battery_level (get_battery_info None) == 100)%Q.
Proof. split; reflexivity. Qed.

Lemma should_throttle_compute_spec (s : option sensor) :
  should_throttle_compute s = true <->
  on_battery (get_battery_info s) = true
  /\ (battery_level (get_battery_info s) < 20)%Q.
Proof.
  unfold should_throttle_compute. rewrite andb_true_iff, Qltb_lt. tauto.
Qed.

End PowerFacts.

(** ** The readiness evaluator *)

Section ReadinessFacts.
Import Power Monitor.

Lemma readiness_fields (m : monitor) (p : probes) :
  let r := snd (get_ai_compute_readiness m p) in
  let i := snd (detect_idle_state m (p_idle p)) in
  idle_state r = i
  /\ power_state r = get_battery_info (p_battery_info p)
  /\ limits r = get_compute_limits (p_battery_limits p)
  /\ cpu_usage (current_resources r) = p_cpu_usage p
  /\ memory_usage (current_resources r) = p_memory_usage p
  /\ readiness_score r =
       compute_score i (get_battery_info (p_battery_info p))
         (p_cpu_usage p) (p_memory_usage p)
  /\ ready_for_ai r =
       (60 <=? readiness_score r)
       && negb (should_throttle_compute (p_battery_throttle p)).
Proof.
  unfold get_ai_compute_readiness.
  destruct (detect_idle_state m (p_idle p)) as [m' i]. simpl.
  repeat split; reflexivity.
Qed.

(** C1: the flag is raised exactly when the score is at least 60 and the
    throttle test fails, that is, the machine is not on battery with a
    level below 20 when [should_throttle_compute] reads the battery. *)
Theorem ready_for_ai_iff (m : monitor) (p : probes) :
  let r := snd (get_ai_compute_readiness m p) in
  let b := get_battery_info (p_battery_throttle p) in
  ready_for_ai r = true <->
  60 <= readiness_score r
  /\ ~ (on_battery b = true /\ (battery_level b < 20)%Q).
Proof.
  intros r b.
  destruct (readiness_fields m p) as (_ & _ & _ & _ & _ & _ & Hr).
  fold r in Hr. rewrite Hr, andb_true_iff, negb_true_iff, Z.leb_le.
  subst b. rewrite <- should_throttle_compute_spec.
  destruct (should_throttle_compute (p_battery_throttle p)); intuition congruence.
Qed.

(** When the battery reads the same at the throttle test as it did for the
    snapshot, the flag is determined by the snapshot alone. *)
Lemma ready_for_ai_snapshot (m : monitor) (p : probes) :
  p_battery_throttle p = p_battery_info p ->
  let r := snd (get_ai_compute_readiness m p) in
  ready_for_ai r = true <->
  60 <= readiness_score r
  /\ ~ (on_battery (power_state r) = true
        /\ (battery_level (power_state r) < 20)%Q).
Proof.
  intros Heq r.
  destruct (readiness_fields m p) as (_ & Hp & _ & _ & _ & _ & Hr).
  fold r in Hp, Hr.
  rewrite Hp, <- Heq, Hr, andb_true_iff, negb_true_iff, Z.leb_le.
  rewrite <- should_throttle_compute_spec.
  destruct (should_throttle_compute (p_battery_throttle p)); intuition congruence.
Qed.

Lemma idle_points_best (i : IdleState) :
  idle_points i = best_row (spec_idle_rows i).
Proof.
  unfold idle_points, spec_idle_rows, best_row.
  destruct (is_idle i); simpl; [|reflexivity].
  qcases; try reflexivity; lra.
Qed.

Lemma power_points_best (b : battery_info) :
  power_points b = best_row (spec_power_rows b).
Proof.
  unfold power_points, spec_power_rows, best_row.
  destruct (on_battery b); simpl; [|reflexivity].
  qcases; try reflexivity; lra.
Qed.

Lemma resource_points_best (cpu mem : Q) :
  resource_points cpu mem = best_row (spec_resource_rows cpu mem).
Proof.
  unfold resource_points, spec_resource_rows, best_row.
  qcases; simpl; try reflexivity; lra.
Qed.

(** The best row is a row that applies, or nothing when none applies. *)
Lemma best_row_is_row (rows : list row) :
  Forall (fun r => 0 <= snd r) rows ->
  (best_row rows = 0 /\ Forall (fun r => fst r = true -> snd r = 0) rows)
  \/ (In (true, best_row rows) rows).
Proof.
  induction 1 as [|[c pts] rest Hpts _ IH]; simpl in *.
  - left. split; [reflexivity|constructor].
  - destruct c.
    + destruct (Z.max_spec pts (best_row rest)) as [[Hlt ->]|[Hle ->]].
      * destruct IH as [[H0 _]|Hin]; [lia|]. right. right. exact Hin.
      * right. left. reflexivity.
    + destruct IH as [[H0 Hall]|Hin].
      * left. split; [exact H0|]. constructor; [simpl; congruence|exact Hall].
      * right. right. exact Hin.
Qed.

(** No applicable row gives more points than the best one. *)
Lemma best_row_max (rows : list row) (pts : Z) :
  In (true, pts) rows -> pts <= best_row rows.
Proof.
  induction rows as [|[c q] rest IH]; simpl; [tauto|].
  intros [Heq|Hin].
  - inversion Heq; subst. lia.
  - specialize (IH Hin). destruct c; lia.
Qed.

Lemma best_row_nonneg (rows : list row) : 0 <= best_row rows.
Proof.
  induction rows as [|[c q] rest IH]; simpl; [lia|]. destruct c; lia.
Qed.

(** The three [if] chains, for any idle state, battery state and resource
    sample: the sum of the best-matching rows, between 5 and 100. *)
Lemma compute_score_composition (i : IdleState) (b : battery_info)
    (cpu mem : Q) :
  let idle := best_row (spec_idle_rows i) in
  let power := best_row (spec_power_rows b) in
  let res := best_row (spec_resource_rows cpu mem) in
  0 <= compute_score i b cpu mem <= 100
  /\ compute_score i b cpu mem = idle + power + res
  /\ In (true, idle) (spec_idle_rows i)
  /\ (power = 0 \/ In (true, power) (spec_power_rows b))
  /\ (res = 0 \/ In (true, res) (spec_resource_rows cpu mem)).
Proof.
  intros idle power res.
  assert (Hsum : compute_score i b cpu mem = idle + power + res).
  { unfold compute_score, idle, power, res.
    rewrite idle_points_best, power_points_best, resource_points_best. lia. }
  assert (Hidle : In (true, idle) (spec_idle_rows i)).
  { unfold idle, spec_idle_rows, best_row.
    destruct (is_idle i); simpl; [|auto 6].
    qcases; simpl; auto 6; lra. }
  assert (Hpow : power = 0 \/ In (true, power) (spec_power_rows b)).
  { unfold power. destruct (best_row_is_row (spec_power_rows b))
      as [[H0 _]|Hin]; [|auto|auto].
    unfold spec_power_rows. repeat constructor; simpl; lia. }
  assert (Hres : res = 0 \/ In (true, res) (spec_resource_rows cpu mem)).
  { unfold res.
    destruct (best_row_is_row (spec_resource_rows cpu mem))
      as [[H0 _]|Hin]; [|auto|auto].
    unfold spec_resource_rows. repeat constructor; simpl; lia. }
  repeat split; try assumption.
  - rewrite Hsum. pose proof (best_row_nonneg (spec_idle_rows i)).
    pose proof (best_row_nonneg (spec_power_rows b)).
    pose proof (best_row_nonneg (spec_resource_rows cpu mem)).
    unfold idle, power, res. lia.
  - rewrite Hsum.
    assert (idle <= 40).
    { unfold spec_idle_rows in Hidle. simpl in Hidle.
      destruct Hidle as [H|[H|[H|[H|[]]]]]; inversion H; lia. }
    assert (power <= 30).
    { destruct Hpow as [->|Hr]; [lia|]. unfold spec_power_rows in Hr.
      simpl in Hr. destruct Hr as [Hr|[Hr|[Hr|[Hr|[]]]]]; inversion Hr; lia. }
    assert (res <= 30).
    { destruct Hres as [->|Hr]; [lia|]. unfold spec_resource_rows in Hr.
      simpl in Hr. destruct Hr as [Hr|[Hr|[Hr|[]]]]; inversion Hr; lia. }
    lia.
Qed.

(** C3: whatever the detector, the battery and the resource probe read,
    the score of the evaluation lies in [0,100] and is the sum of the
    best-matching Idle row for the detected idle state (always one of 40,
    30, 20, 5), the best-matching Power row for the battery reading and the
    best-matching Resources row for the CPU and memory sample (nothing when
    no row applies); the snapshot reports these same readings. *)
Theorem readiness_score_composition (m : monitor) (p : probes) :
  let r := snd (get_ai_compute_readiness m p) in
  let i := snd (detect_idle_state m (p_idle p)) in
  let b := get_battery_info (p_battery_info p) in
  let idle := best_row (spec_idle_rows i) in
  let power := best_row (spec_power_rows b) in
  let res := best_row (spec_resource_rows (p_cpu_usage p) (p_memory_usage p)) in
  0 <= readiness_score r <= 100
  /\ readiness_score r = idle + power + res
  /\ In (true, idle) (spec_idle_rows i)
  /\ (power = 0 \/ In (true, power) (spec_power_rows b))
  /\ (res = 0 \/
      In (true, res) (spec_resource_rows (p_cpu_usage p) (p_memory_usage p)))
  /\ idle_state r = i
  /\ power_state r = b
  /\ cpu_usage (current_resources r) = p_cpu_usage p
  /\ memory_usage (current_resources r) = p_memory_usage p.
Proof.
  intros r i b idle power res.
  destruct (readiness_fields m p) as (Hi & Hp & _ & Hc & Hm & Hs & _).
  fold r i b in Hi, Hp, Hc, Hm, Hs.
  destruct (compute_score_composition i b (p_cpu_usage p) (p_memory_usage p))
    as (H1 & H2 & H3 & H4 & H5).
  rewrite <- Hs in H1, H2.
  repeat split; try assumption; apply H1.
Qed.

End ReadinessFacts.

Section ScoreMonotone.
Import Power Monitor.

Lemma idle_points_mono (i1 i2 : IdleState) :
  (is_idle i1 = true -> is_idle i2 = true) ->
  (idle_duration i1 <= idle_duration i2)%Q ->
  idle_points i1 <= idle_points i2.
Proof.
  intros Hi Hd. unfold idle_points.
  destruct (is_idle i1).
  - rewrite (Hi eq_refl). qcases; lia || lra.
  - destruct (is_idle i2); qcases; lia.
Qed.

Lemma power_points_mono (b1 b2 : battery_info) :
  on_battery b1 = on_battery b2 ->
  (on_battery b1 = true -> (battery_level b1 <= battery_level b2)%Q) ->
  power_points b1 <= power_points b2.
Proof.
  intros Hb Hl. unfold power_points. rewrite <- Hb.
  destruct (on_battery b1); simpl; [|lia].
  specialize (Hl eq_refl). qcases; lia || lra.
Qed.

Lemma resource_points_mono (c1 c2 m1 m2 : Q) :
  (c2 <= c1)%Q -> (m2 <= m1)%Q ->
  resource_points c1 m1 <= resource_points c2 m2.
Proof.
  intros Hc Hm. unfold resource_points. qcases; simpl; lia || lra.
Qed.

(** C5: between two evaluations, the score does not go down when the idle
    duration grows (an idle machine staying idle; a machine that was not
    idle may become idle), the battery level grows (on battery), and the
    CPU and memory usage shrink; each may also stay as it is. The idle
    state, the battery state and the usage are those the evaluation reads. *)
Theorem readiness_score_monotone (m1 m2 : monitor) (p1 p2 : probes) :
  let r1 := snd (get_ai_compute_readiness m1 p1) in
  let r2 := snd (get_ai_compute_readiness m2 p2) in
  let i1 := snd (detect_idle_state m1 (p_idle p1)) in
  let i2 := snd (detect_idle_state m2 (p_idle p2)) in
  let b1 := get_battery_info (p_battery_info p1) in
  let b2 := get_battery_info (p_battery_info p2) in
  (is_idle i1 = true -> is_idle i2 = true) ->
  (idle_duration i1 <= idle_duration i2)%Q ->
  on_battery b1 = on_battery b2 ->
  (on_battery b1 = true -> (battery_level b1 <= battery_level b2)%Q) ->
  (p_cpu_usage p2 <= p_cpu_usage p1)%Q ->
  (p_memory_usage p2 <= p_memory_usage p1)%Q ->
  readiness_score r1 <= readiness_score r2.
Proof.
  intros r1 r2 i1 i2 b1 b2.
  destruct (readiness_fields m1 p1) as (_ & _ & _ & _ & _ & Hs1 & _).
  destruct (readiness_fields m2 p2) as (_ & _ & _ & _ & _ & Hs2 & _).
  fold r1 i1 b1 in Hs1. fold r2 i2 b2 in Hs2.
  intros Hidle Hdur Hbat Hlvl Hcpu Hmem.
  rewrite Hs1, Hs2. unfold compute_score.
  pose proof (idle_points_mono _ _ Hidle Hdur).
  pose proof (power_points_mono _ _ Hbat Hlvl).
  pose proof (resource_points_mono _ _ _ _ Hcpu Hmem).
  lia.
Qed.

(** The same monitor read later, everything else alike: the detector
    reports an idle state that is at least as far along. *)
Lemma detect_idle_state_later (m : monitor) (r : reading) (t1 t2 : Q) :
  (t1 <= t2)%Q ->
  let i1 := snd (detect_idle_state m {| sampled := Some r; clock := t1 |}) in
  let i2 := snd (detect_idle_state m {| sampled := Some r; clock := t2 |}) in
  (is_idle i1 = true -> is_idle i2 = true)
  /\ (idle_duration i1 <= idle_duration i2)%Q.
Proof.
  intros Ht. unfold detect_idle_state, idle_update.
  cbn [sampled clock snd].
  destruct (r_user_active r); [simpl; split; [auto|lra]|].
  destruct (low_load m r); simpl.
  - destruct (currently_idle m) eqn:Hc; simpl.
    + rewrite ?Hc. destruct (idle_start_time m); simpl; split; auto; lra.
    + destruct (idle_start_time m) as [t0|] eqn:Hs; simpl.
      * qcases; simpl; rewrite ?Hc, ?Hs; simpl; split; auto; try lra;
          try discriminate.
      * rewrite ?Hc. simpl. split; [auto|lra].
  - split; [auto|lra].
Qed.

(** Hence a later reading of the clock, with the same monitor, readings
    and probes otherwise, never lowers the score. *)
Lemma readiness_score_later (m : monitor) (p : probes) (r : reading)
    (t1 t2 : Q) :
  (t1 <= t2)%Q ->
  let at_time t :=
    {| p_idle := {| sampled := Some r; clock := t |};
       p_battery_info := p_battery_info p;
       p_battery_limits := p_battery_limits p;
       p_cpu_usage := p_cpu_usage p;
       p_memory_usage := p_memory_usage p;
       p_battery_throttle := p_battery_throttle p;
       p_cpu_rec := p_cpu_rec p;
       p_mem_rec := p_mem_rec p;
       p_gpu_enabled := p_gpu_enabled p |} in
  readiness_score (snd (get_ai_compute_readiness m (at_time t1)))
  <= readiness_score (snd (get_ai_compute_readiness m (at_time t2))).
Proof.
  intros Ht at_time.
  destruct (readiness_fields m (at_time t1)) as (_ & _ & _ & _ & _ & Hs1 & _).
  destruct (readiness_fields m (at_time t2)) as (_ & _ & _ & _ & _ & Hs2 & _).
  rewrite Hs1, Hs2. unfold compute_score. cbn [at_time p_idle p_battery_info
    p_cpu_usage p_memory_usage].
  destruct (detect_idle_state_later m r t1 t2 Ht) as [Hi Hd].
  pose proof (idle_points_mono _ _ Hi Hd). lia.
Qed.

End ScoreMonotone.

(** ** The idle detector *)

Section IdleFacts.
Import Monitor.

Lemma idle_update_thresholds (m : monitor) (r : reading) (t : Q) :
  idle_threshold_cpu (idle_update m r t) = idle_threshold_cpu m
  /\ idle_threshold_duration (idle_update m r t) = idle_threshold_duration m.
Proof.
  unfold idle_update.
  destruct (r_user_active r); [split; reflexivity|].
  destruct (low_load m r && negb (currently_idle m)).
  - destruct (idle_start_time m); [|split; reflexivity].
    destruct (Qltb _ _); split; reflexivity.
  - destruct (negb (low_load m r)); split; reflexivity.
Qed.

Lemma detect_idle_state_thresholds (m : monitor) (p : idle_probe) :
  idle_threshold_cpu (fst (detect_idle_state m p)) = idle_threshold_cpu m
  /\ idle_threshold_duration (fst (detect_idle_state m p))
     = idle_threshold_duration m.
Proof.
  unfold detect_idle_state. destruct (sampled p); simpl; [|split; reflexivity].
  apply idle_update_thresholds.
Qed.

(** Activity ends the idle session. *)
Lemma idle_update_active (m : monitor) (r : reading) (t : Q) :
  r_user_active r = true ->
  currently_idle (idle_update m r t) = false
  /\ idle_start_time (idle_update m r t) = None.
Proof. intros H. unfold idle_update. rewrite H. split; reflexivity. Qed.

(** A sample that is not under low load ends it as well. *)
Lemma idle_update_high_load (m : monitor) (r : reading) (t : Q) :
  low_load m r = false ->
  currently_idle (idle_update m r t) = false
  /\ idle_start_time (idle_update m r t) = None.
Proof.
  intros H. unfold idle_update. rewrite H. simpl.
  destruct (r_user_active r); split; reflexivity.
Qed.

(** The session start is only ever set to the current time, on an inactive
    low-load sample; otherwise it is kept or cleared. *)
Lemma idle_update_start (m : monitor) (r : reading) (t : Q) :
  idle_start_time (idle_update m r t) = None
  \/ idle_start_time (idle_update m r t) = idle_start_time m
  \/ (idle_start_time m = None
      /\ idle_start_time (idle_update m r t) = Some t
      /\ r_user_active r = false /\ low_load m r = true).
Proof.
  unfold idle_update.
  destruct (r_user_active r); [left; reflexivity|].
  destruct (low_load m r) eqn:Hl; simpl.
  - destruct (currently_idle m); simpl; [right; left; reflexivity|].
    destruct (idle_start_time m) eqn:Hs.
    + right. left. destruct (Qltb _ _); simpl; congruence.
    + right. right. auto.
  - left. reflexivity.
Qed.

(** The flag is raised only on an inactive low-load sample taken more than
    the threshold after the session start. *)
Lemma idle_update_raise (m : monitor) (r : reading) (t : Q) :
  currently_idle m = false ->
  currently_idle (idle_update m r t) = true ->
  r_user_active r = false /\ low_load m r = true
  /\ exists t0, idle_start_time m = Some t0
       /\ (idle_threshold_duration m < t - t0)%Q.
Proof.
  unfold idle_update. intros Hm.
  destruct (r_user_active r); [discriminate|].
  destruct (low_load m r); simpl.
  - rewrite Hm. simpl. destruct (idle_start_time m) as [t0|]; simpl.
    + destruct (Qltb (idle_threshold_duration m) (t - t0)) eqn:E; simpl.
      * intros _. apply Qltb_lt in E. eauto.
      * congruence.
    + congruence.
  - discriminate.
Qed.

Lemma run_idle_active (m : monitor) (ps : list idle_probe) :
  currently_idle m = false ->
  Forall (fun p => match sampled p with
                   | Some r => r_user_active r = true
                   | None => True
                   end) ps ->
  Forall (fun m' => currently_idle m' = false) (run_idle m ps).
Proof.
  intros Hm Hall. revert m Hm.
  induction Hall as [|p ps Hp _ IH]; intros m Hm; simpl; constructor.
  - unfold detect_idle_state. destruct (sampled p) as [r|]; simpl; [|exact Hm].
    apply idle_update_active, Hp.
  - apply IH. unfold detect_idle_state.
    destruct (sampled p) as [r|]; simpl; [|exact Hm].
    apply idle_update_active, Hp.
Qed.

(** C9: activity resets the detector; the session start is set only on an
    inactive low-load sample and cleared when the load is not low; the idle
    flag is raised only once the session has lasted the threshold (300 s
    by default); with input every 25 s the flag is never raised. *)
Theorem detect_idle_state_transitions :
  (forall m r t,
     r_user_active r = true ->
     let m' := fst (detect_idle_state m {| sampled := Some r; clock := t |}) in
     currently_idle m' = false /\ idle_start_time m' = None)
  /\ (forall m p t0,
        idle_start_time (fst (detect_idle_state m p)) = Some t0 ->
        idle_start_time m = Some t0
        \/ (idle_start_time m = None /\ t0 = clock p
            /\ exists r, sampled p = Some r
                 /\ r_user_active r = false /\ low_load m r = true))
  /\ (forall m r t,
        low_load m r = false ->
        let m' := fst (detect_idle_state m {| sampled := Some r; clock := t |}) in
        idle_start_time m' = None /\ currently_idle m' = false)
  /\ (forall m p,
        currently_idle m = false ->
        currently_idle (fst (detect_idle_state m p)) = true ->
        exists r t0, sampled p = Some r
          /\ r_user_active r = false /\ low_load m r = true
          /\ idle_start_time m = Some t0
          /\ (idle_threshold_duration m <= clock p - t0)%Q)
  /\ (forall now ps,
        Forall (fun m => (idle_threshold_duration m == 300)%Q
                         /\ (idle_threshold_cpu m == 10)%Q)
               (init now :: run_idle (init now) ps))
  /\ (forall now ps,
        Forall (fun p => match sampled p with
                         | Some r => exists ms, (ms <= 25000)%Q
                             /\ r_user_active r = _check_user_activity (Some ms)
                         | None => True
                         end) ps ->
        Forall (fun m => currently_idle m = false) (run_idle (init now) ps)).
Proof.
  repeat apply conj.
  - intros m r t H. simpl. apply idle_update_active, H.
  - intros m p t0. unfold detect_idle_state.
    destruct (sampled p) as [r|] eqn:Hs; simpl; [|auto].
    destruct (idle_update_start m r (clock p)) as [H|[H|(Hn & H & Ha & Hl)]];
      rewrite H; intros Ht.
    + discriminate.
    + auto.
    + right. inversion Ht; subst. eauto 6.
  - intros m r t H. simpl.
    destruct (idle_update_high_load m r t H). auto.
  - intros m p Hm. unfold detect_idle_state.
    destruct (sampled p) as [r|]; simpl; [|congruence].
    intros H. destruct (idle_update_raise m r (clock p) Hm H)
      as (Ha & Hl & t0 & Hs & Hlt).
    exists r, t0. repeat split; auto. lra.
  - intros now ps. constructor; [split; reflexivity|].
    assert (G : forall m, (idle_threshold_duration m == 300)%Q ->
                          (idle_threshold_cpu m == 10)%Q ->
              Forall (fun m => (idle_threshold_duration m == 300)%Q
                         /\ (idle_threshold_cpu m == 10)%Q) (run_idle m ps)).
    { induction ps as [|p ps IH]; intros m H1 H2; simpl; [constructor|].
      destruct (detect_idle_state_thresholds m p) as [E1 E2].
      constructor.
      - rewrite E1, E2. auto.
      - apply IH; [rewrite E2|rewrite E1]; assumption. }
    apply G; reflexivity.
  - intros now ps Hall. apply run_idle_active; [reflexivity|].
    eapply Forall_impl; [exact Hall|]. intros p. simpl.
    destruct (sampled p) as [r|]; [|auto].
    intros (ms & Hms & ->). simpl. apply Qltb_lt. lra.
Qed.

(** At exactly the threshold the flag is not raised yet: the test is
    strict. *)
Lemma idle_not_raised_at_threshold (m : monitor) (r : reading) (t t0 : Q) :
  currently_idle m = false ->
  idle_start_time m = Some t0 ->
  (t - t0 <= idle_threshold_duration m)%Q ->
  currently_idle (idle_update m r t) = false.
Proof.
  intros Hm Hs Hle.
  destruct (currently_idle (idle_update m r t)) eqn:E; [|reflexivity].
  destruct (idle_update_raise m r t Hm E) as (_ & _ & t1 & Hs1 & Hlt).
  rewrite Hs in Hs1. inversion Hs1; subst. lra.
Qed.

End IdleFacts.

(** ** The stable sort *)

Section SortingFacts.
Import Sorting.
Context {A : Type}.
Variable le : A -> A -> bool.
Hypothesis le_total : forall x y, le x y = false -> le y x = true.
Hypothesis le_trans : forall x y z, le x y = true -> le y z = true -> le x z = true.

Lemma insert_stable_perm (x : A) (l : list A) :
  Permutation (insert_stable le x l) (x :: l).
Proof.
  induction l as [|y r IH]; simpl; [reflexivity|].
  destruct (le x y); [reflexivity|].
  rewrite IH. apply perm_swap.
Qed.

Lemma sorted_perm (l : list A) : Permutation (sorted le l) l.
Proof.
  induction l as [|x r IH]; simpl; [reflexivity|].
  rewrite insert_stable_perm. now constructor.
Qed.

Lemma insert_stable_sorted (x : A) (l : list A) :
  StronglySorted (holds le) l -> StronglySorted (holds le) (insert_stable le x l).
Proof.
  induction 1 as [|y r Hr IH Hy]; simpl.
  - repeat constructor.
  - destruct (le x y) eqn:E.
    + constructor; [constructor; assumption|].
      constructor; [exact E|].
      eapply Forall_impl; [exact Hy|]. intros z Hz. exact (le_trans _ _ _ E Hz).
    + constructor; [exact IH|].
      rewrite (insert_stable_perm x r). constructor; [|exact Hy].
      apply le_total, E.
Qed.

Lemma sorted_sorted (l : list A) : StronglySorted (holds le) (sorted le l).
Proof.
  induction l as [|x r IH]; simpl; [constructor|].
  apply insert_stable_sorted, IH.
Qed.

(** Stability: the elements that compare equal to [a] come out in the
    order they went in. *)
Lemma insert_stable_filter (a x : A) (l : list A) :
  List.filter (same_key le a) (insert_stable le x l)
  = List.filter (same_key le a) (x :: l).
Proof.
  induction l as [|y r IH]; [reflexivity|].
  cbn [insert_stable]. destruct (le x y) eqn:E; [reflexivity|].
  cbn [List.filter] in *. rewrite IH.
  destruct (same_key le a x) eqn:Hx; [|reflexivity].
  destruct (same_key le a y) eqn:Hy; [|reflexivity].
  exfalso. unfold same_key in Hx, Hy.
  apply andb_true_iff in Hx as [_ Hxa]. apply andb_true_iff in Hy as [Hay _].
  rewrite (le_trans _ _ _ Hxa Hay) in E. discriminate.
Qed.

Lemma sorted_stable (a : A) (l : list A) :
  List.filter (same_key le a) (sorted le l) = List.filter (same_key le a) l.
Proof.
  induction l as [|x r IH]; [reflexivity|].
  cbn [sorted foldr]. fold (sorted le r).
  rewrite insert_stable_filter. cbn [List.filter]. now rewrite IH.
Qed.

Lemma find_In (P : A -> bool) (l : list A) (y : A) :
  find P l = Some y -> In y l /\ P y = true.
Proof. apply find_some. Qed.

Lemma find_insert_stable (P : A -> bool) (x : A) (l : list A) :
  StronglySorted (holds le) l ->
  find P (insert_stable le x l) =
    if P x then
      match find P l with
      | Some y => if le x y then Some x else Some y
      | None => Some x
      end
    else find P l.
Proof.
  induction 1 as [|z r Hr IH Hz]; simpl.
  - destruct (P x); reflexivity.
  - destruct (le x z) eqn:E; simpl.
    + destruct (P x) eqn:Px; [|reflexivity].
      destruct (P z); [now rewrite E|].
      destruct (find P r) as [y|] eqn:F; [|reflexivity].
      apply find_In in F as [Hin _].
      rewrite Forall_forall in Hz.
      now rewrite (le_trans _ _ _ E (Hz y ltac:(now apply list_elem_of_In))).
    + destruct (P z) eqn:Pz.
      * destruct (P x); [now rewrite E|reflexivity].
      * exact IH.
Qed.

Lemma find_sorted (P : A -> bool) (l : list A) :
  find P (sorted le l) = first_best le P l.
Proof.
  induction l as [|x r IH]; [reflexivity|].
  cbn [sorted foldr first_best]. fold (sorted le r).
  rewrite find_insert_stable by apply sorted_sorted.
  now rewrite IH.
Qed.

Lemma head_find (l : list A) : head l = find (fun _ => true) l.
Proof. destruct l; reflexivity. Qed.

Lemma first_best_None (P : A -> bool) (l : list A) :
  first_best le P l = None <-> existsb P l = false.
Proof.
  induction l as [|x r IH]; simpl; [tauto|].
  destruct (P x); simpl; [|exact IH].
  destruct (first_best le P r); [destruct (le x a)|]; split; discriminate.
Qed.

(** The element chosen by [first_best] splits the list: no qualifying
    element in front of it is at least as good, and it is at least as good
    as every qualifying element behind it. *)
Lemma first_best_Some (P : A -> bool) (l : list A) (n : A) :
  first_best le P l = Some n ->
  P n = true
  /\ exists before after, l = before ++ n :: after
       /\ Forall (fun m => P m = true -> le m n = false) before
       /\ Forall (fun m => P m = true -> le n m = true) after.
Proof.
  revert n. induction l as [|x r IH]; intros n; simpl; [discriminate|].
  destruct (P x) eqn:Px.
  - destruct (first_best le P r) as [y|] eqn:F.
    + destruct (IH y eq_refl) as (Py & b & a & -> & Hb & Ha).
      destruct (le x y) eqn:E; intros [= <-].
      * split; [exact Px|]. exists [], (b ++ y :: a). split; [reflexivity|].
        split; [constructor|].
        apply Forall_app. split; [|constructor].
        -- eapply Forall_impl; [exact Hb|]. intros m Hm Pm. simpl in Hm.
           apply (le_trans _ _ _ E). apply le_total. auto.
        -- intros _. exact E.
        -- eapply Forall_impl; [exact Ha|]. intros m Hm Pm. simpl in Hm.
           apply (le_trans _ _ _ E). auto.
      * split; [exact Py|]. exists (x :: b), a. split; [reflexivity|].
        split; [|exact Ha]. constructor; [intros _; exact E|exact Hb].
    + intros [= <-]. split; [exact Px|]. exists [], r.
      split; [reflexivity|]. split; [constructor|].
      apply first_best_None in F. rewrite Forall_forall. intros m Hm Pm.
      apply list_elem_of_In in Hm.
      assert (existsb P r = true) by (apply existsb_exists; eauto).
      congruence.
  - intros F. destruct (IH n F) as (Pn & b & a & -> & Hb & Ha).
    split; [exact Pn|]. exists (x :: b), a. split; [reflexivity|].
    split; [|exact Ha]. constructor; [congruence|exact Hb].
Qed.

End SortingFacts.

(** ** Node selection *)

Section SelectionFacts.
Import Sorting Scheduler Samples.

Lemma score_desc_total (x y : node) :
  score_desc x y = false -> score_desc y x = true.
Proof. unfold score_desc. lia. Qed.

Lemma score_desc_trans (x y z : node) :
  score_desc x y = true -> score_desc y z = true -> score_desc x z = true.
Proof. unfold score_desc. lia. Qed.

(** The candidates are sorted by score, highest first, and candidates with
    the same score keep the order they had. *)
Lemma sorted_nodes_spec (nodes : list node) :
  let sorted_nodes := sorted score_desc nodes in
  Permutation sorted_nodes nodes
  /\ StronglySorted (fun n m => score m <= score n) sorted_nodes
  /\ forall a, List.filter (fun n => score n =? score a) sorted_nodes
               = List.filter (fun n => score n =? score a) nodes.
Proof.
  intros sorted_nodes. split; [apply sorted_perm|]. split.
  - pose proof (sorted_sorted score_desc score_desc_total score_desc_trans nodes) as H.
    fold sorted_nodes in H.
    induction H as [|n r Hr IH Hn]; constructor; [exact IH|].
    eapply Forall_impl; [exact Hn|]. intros m Hm.
    unfold holds, score_desc in Hm. lia.
  - intros a.
    pose proof (sorted_stable score_desc score_desc_trans a nodes) as H.
    fold sorted_nodes in H.
    assert (E : forall l, List.filter (same_key score_desc a) l
                          = List.filter (fun n => score n =? score a) l).
    { intros l. apply filter_ext. intros n. unfold same_key, score_desc. lia. }
    now rewrite !E in H.
Qed.

Lemma _node_meets_requirements_spec (n : node) (ty : string) :
  _node_meets_requirements n ty = true <->
  60 <= score n
  /\ (ty = "gpu_inference"%string \/ ty = "training"%string ->
      default false (gpu_available n) = true)
  /\ default 0 (current_load n) < default 1 (max_concurrent_tasks n).
Proof.
  unfold _node_meets_requirements, score.
  destruct (default 0 (readiness_score n) <? 60) eqn:E1.
  { split; [discriminate|]. lia. }
  destruct (default false (gpu_available n)) eqn:G; simpl;
    repeat case_bool_decide; simpl;
    destruct (default 1 (max_concurrent_tasks n) <=? default 0 (current_load n)) eqn:E2;
    split; try discriminate; try (intros; reflexivity);
    try (intros (_ & _ & ?); lia);
    try (intros (_ & Hg & _); discriminate Hg; auto);
    intros _; repeat split; try lia; tauto.
Qed.

(** C2, as the code has it: with no candidate there is no node; otherwise
    the node returned sits in the candidate list so that every qualifying
    candidate in front of it has a strictly lower score and every
    qualifying candidate behind it has at most its score, where
    "qualifying" means meeting all three requirements if some candidate
    does, and being any candidate if none does. *)
Theorem select_optimal_ai_node_spec (t : task) (nodes : list node) :
  let meets n := _node_meets_requirements n (effective_task_type t) in
  let qualifies n := if existsb meets nodes then meets n else true in
  match _select_optimal_ai_node t nodes with
  | None => nodes = []
  | Some n =>
      qualifies n = true
      /\ exists before after,
           nodes = before ++ n :: after
           /\ Forall (fun m => qualifies m = true -> score m < score n) before
           /\ Forall (fun m => qualifies m = true -> score m <= score n) after
  end.
Proof.
  intros meets qualifies. unfold _select_optimal_ai_node.
  destruct nodes as [|x r]; [reflexivity|].
  set (nodes := x :: r). fold meets.
  rewrite (find_sorted score_desc score_desc_total score_desc_trans).
  rewrite head_find, (find_sorted score_desc score_desc_total score_desc_trans).
  assert (Hq : forall P n,
    (forall m, P m = qualifies m) ->
    first_best score_desc P nodes = Some n ->
    qualifies n = true
    /\ exists before after,
         nodes = before ++ n :: after
         /\ Forall (fun m => qualifies m = true -> score m < score n) before
         /\ Forall (fun m => qualifies m = true -> score m <= score n) after).
  { intros P n HP F.
    destruct (first_best_Some score_desc score_desc_total score_desc_trans
                P nodes n F) as (Pn & b & a & E & Hb & Ha).
    split; [now rewrite <- HP|]. exists b, a. split; [exact E|]. split.
    - eapply Forall_impl; [exact Hb|]. intros m Hm Qm. simpl in Hm.
      rewrite <- HP in Qm. specialize (Hm Qm). unfold score_desc in Hm. lia.
    - eapply Forall_impl; [exact Ha|]. intros m Hm Qm. simpl in Hm.
      rewrite <- HP in Qm. specialize (Hm Qm). unfold score_desc in Hm. lia. }
  destruct (first_best score_desc meets nodes) as [n|] eqn:F.
  - apply (Hq meets n); [|exact F].
    intros m. unfold qualifies. change (x :: r) with nodes.
    destruct (existsb meets nodes) eqn:Ex; [reflexivity|].
    apply (first_best_None score_desc) in Ex. congruence.
  - pose proof F as Ex. apply first_best_None in Ex.
    destruct (first_best score_desc (fun _ => true) nodes) as [n|] eqn:F2.
    + apply (Hq (fun _ => true) n); [|exact F2].
      intros m. unfold qualifies. change (x :: r) with nodes. now rewrite Ex.
    + apply first_best_None in F2. discriminate F2.
Qed.

(** C2 fails as worded: [node_b] meets every requirement and precedes
    [node_a] in the claimed order (same score, lower load), yet [node_a],
    first in the registry, is returned. *)
Lemma select_tie_break_counterexample :
  _select_optimal_ai_node task_low [node_a; node_b] = Some node_a
  /\ claimed_select task_low [node_a; node_b] = Some node_b
  /\ _node_meets_requirements node_b (effective_task_type task_low) = true
  /\ claimed_before node_b node_a = true
  /\ claimed_before node_a node_b = false.
Proof. repeat split; vm_compute; reflexivity. Qed.

End SelectionFacts.

(** ** The task-queue driver *)

Section QueueFacts.
Import Sorting Scheduler Samples.

Lemma ascii_compare_lt_trans (a b c : Ascii.ascii) :
  Ascii.compare a b = Lt -> Ascii.compare b c = Lt -> Ascii.compare a c = Lt.
Proof.
  unfold Ascii.compare. rewrite !N.compare_lt_iff. lia.
Qed.

Lemma string_compare_lt_trans (a b c : string) :
  String.compare a b = Lt -> String.compare b c = Lt -> String.compare a c = Lt.
Proof.
  revert b c. induction a as [|x a IH]; intros [|y b] [|z c]; simpl;
    try discriminate; try reflexivity.
  destruct (Ascii.compare x y) eqn:Exy; try discriminate.
  - apply Ascii.compare_eq_iff in Exy. subst y.
    destruct (Ascii.compare x z); try discriminate; [apply IH|reflexivity].
  - intros _. destruct (Ascii.compare y z) eqn:Eyz; try discriminate.
    + apply Ascii.compare_eq_iff in Eyz. subst z. now rewrite Exy.
    + now rewrite (ascii_compare_lt_trans _ _ _ Exy Eyz).
Qed.

Lemma string_leb_trans (a b c : string) :
  String.leb a b = true -> String.leb b c = true -> String.leb a c = true.
Proof.
  unfold String.leb.
  destruct (String.compare a b) eqn:Eab; try discriminate;
    destruct (String.compare b c) eqn:Ebc; try discriminate; intros _ _.
  - apply String.compare_eq_iff in Eab. subst. now rewrite Ebc.
  - apply String.compare_eq_iff in Eab. subst. now rewrite Ebc.
  - apply String.compare_eq_iff in Ebc. subst. now rewrite Eab.
  - now rewrite (string_compare_lt_trans _ _ _ Eab Ebc).
Qed.

Lemma task_key_le_total (x y : task) :
  task_key_le x y = false -> task_key_le y x = true.
Proof.
  unfold task_key_le. intros H.
  apply orb_false_iff in H as [H1 H2].
  destruct (default 0 (priority y) <? default 0 (priority x)) eqn:E;
    [reflexivity|].
  assert (Heq : default 0 (priority x) = default 0 (priority y)) by lia.
  rewrite Heq, Z.eqb_refl in *. simpl in *.
  destruct (String.leb_total (default ""%string (created_at x))
                             (default ""%string (created_at y))); congruence.
Qed.

Lemma task_key_le_trans (x y z : task) :
  task_key_le x y = true -> task_key_le y z = true -> task_key_le x z = true.
Proof.
  unfold task_key_le. intros H1 H2.
  apply orb_true_iff in H1. apply orb_true_iff in H2. apply orb_true_iff.
  destruct H1 as [H1|H1], H2 as [H2|H2];
    rewrite ?andb_true_iff in *; try (left; lia).
  right. destruct H1 as [E1 L1], H2 as [E2 L2].
  split; [lia|]. exact (string_leb_trans _ _ _ L1 L2).
Qed.

Lemma scheduled_while_prefix (running : nat -> bool) (k : nat) (l : list task) :
  exists rest, l = scheduled_while running k l ++ rest.
Proof.
  revert k. induction l as [|t r IH]; intros k; simpl; [now exists []|].
  destruct (running k); [|now exists (t :: r)].
  destruct (IH (S k)) as [rest E]. exists rest. simpl. now rewrite <- E.
Qed.

Lemma scheduled_while_all (running : nat -> bool) (k : nat) (l : list task) :
  (forall j, running j = true) -> scheduled_while running k l = l.
Proof.
  intros H. revert k. induction l as [|t r IH]; intros k; simpl; [reflexivity|].
  now rewrite H, IH.
Qed.

(** C8, as the code has it: a drain tick hands the pending tasks to the
    scheduler in ascending order of the priority value (lower value first),
    ties broken by creation time ascending, and tasks equal on both keep
    the order of the registry; the pass stops early only when the
    scheduler is stopped. *)
Theorem process_task_queue_order (running : nat -> bool) (pending : list task) :
  let order := sorted task_key_le pending in
  let before x y :=
    default 0 (priority x) < default 0 (priority y)
    \/ (default 0 (priority x) = default 0 (priority y)
        /\ String.leb (default ""%string (created_at x))
                      (default ""%string (created_at y)) = true) in
  Permutation order pending
  /\ StronglySorted before order
  /\ (forall a, List.filter (same_key task_key_le a) order
                = List.filter (same_key task_key_le a) pending)
  /\ (exists rest, order = _process_task_queue_tick running pending ++ rest)
  /\ ((forall k, running k = true) ->
      _process_task_queue_tick running pending = order).
Proof.
  intros order before. split; [apply sorted_perm|]. split; [|split; [|split]].
  - pose proof (sorted_sorted task_key_le task_key_le_total task_key_le_trans
                  pending) as H.
    fold order in H.
    induction H as [|n r Hr IH Hn]; constructor; [exact IH|].
    eapply Forall_impl; [exact Hn|]. intros m Hm.
    unfold holds, task_key_le in Hm. unfold before.
    apply orb_true_iff in Hm as [Hm|Hm]; [left; lia|].
    apply andb_true_iff in Hm as [Hm1 Hm2]. right. split; [lia|exact Hm2].
  - intros a. apply sorted_stable, task_key_le_trans.
  - apply scheduled_while_prefix.
  - intros H. apply scheduled_while_all, H.
Qed.

(** C8 fails as worded: the task of priority 1 is scheduled before the task
    of priority 5. *)
Lemma priority_order_counterexample :
  _process_task_queue_tick always_running [task_high; task_low]
    = [task_low; task_high]
  /\ sorted claimed_task_le [task_high; task_low] = [task_high; task_low]
  /\ claimed_task_le task_low task_high = false.
Proof. repeat split; vm_compute; reflexivity. Qed.

End QueueFacts.

(** ** Rejected dispatches *)

Section DispatchFacts.
Import Scheduler Samples.

Lemma _send_task_to_node_rejected (n : node) :
  _send_task_to_node n (Reply200 (Some "rejected"%string)) = false.
Proof.
  unfold _send_task_to_node. destruct (host n), (port n); reflexivity.
Qed.

(** A dispatch fails exactly when the node record has no address, the
    call does not come back with status 200, or the body says rejected. *)
Lemma _send_task_to_node_true (n : node) (reply : execute_reply) :
  _send_task_to_node n reply = true <->
  is_Some (host n) /\ is_Some (port n)
  /\ exists status, reply = Reply200 status /\ status <> Some "rejected"%string.
Proof.
  unfold _send_task_to_node.
  destruct (host n) as [h|]; [|split; [discriminate|]].
  2: { intros (H & _). destruct H as [? H]. discriminate H. }
  destruct (port n) as [q|]; [|split; [discriminate|]].
  2: { intros (_ & H & _). destruct H as [? H]. discriminate H. }
  destruct reply as [status| |].
  - case_bool_decide as Hs.
    + split; [discriminate|].
      intros (_ & _ & s' & E & Hn). inversion E; subst. contradiction.
    + split; [|reflexivity]. intros _. repeat split; eauto.
  - split; [discriminate|]. intros (_ & _ & s' & E & _). discriminate E.
  - split; [discriminate|]. intros (_ & _ & s' & E & _). discriminate E.
Qed.

(** C6, as the code has it: when the chosen node answers rejected, the
    schedule attempt reports failure and the registry has seen exactly two
    updates of the task, to running on that node and then back to pending
    with no node; the readiness cache and the assignment table are left as
    they were. *)
Theorem schedule_task_rejected
    (registry : Type)
    (update_task_status :
       string -> TaskStatus -> option string -> registry -> registry)
    (s : scheduler registry) (t : task) (nodes : list node) (best : node) :
  _select_optimal_ai_node t nodes = Some best ->
  let out := schedule_task registry update_task_status s t nodes
               (Reply200 (Some "rejected"%string)) in
  snd out = false
  /\ reg (fst out) =
       update_task_status (task_id t) PENDING None
         (update_task_status (task_id t) RUNNING (Some (id best)) (reg s))
  /\ ai_readiness_cache (fst out) = ai_readiness_cache s
  /\ task_assignments (fst out) = task_assignments s.
Proof.
  intros Hsel out. subst out. unfold schedule_task, _assign_task_to_node.
  rewrite Hsel, _send_task_to_node_rejected. simpl. repeat split.
Qed.

(** With the task table as registry, the task is pending again. *)
Lemma schedule_task_rejected_pending
    (s : scheduler task_table) (t : task) (nodes : list node) (best : node) :
  _select_optimal_ai_node t nodes = Some best ->
  reg (fst (schedule_task task_table table_update_task_status s t nodes
              (Reply200 (Some "rejected"%string)))) !! task_id t
  = Some (PENDING, None).
Proof.
  intros Hsel. unfold schedule_task, _assign_task_to_node.
  rewrite Hsel, _send_task_to_node_rejected. simpl.
  unfold table_update_task_status. apply lookup_insert_eq.
Qed.

(** C6 fails as worded: after node b rejected the task, its entry is still
    in the readiness cache. *)
Lemma rejected_keeps_cache_counterexample :
  let out := schedule_task task_table table_update_task_status scheduler0
               task_low [node_b] rejected in
  _select_optimal_ai_node task_low [node_b] = Some node_b
  /\ snd out = false
  /\ ai_readiness_cache (fst out) !! "b"%string = Some (snapshot_b, 0%Q)
  /\ ai_readiness_cache (fst out) = ai_readiness_cache scheduler0.
Proof.
  simpl. repeat split.
Qed.

End DispatchFacts.

(** ** The execute endpoint *)

Section ExecuteFacts.
Import Power Monitor Agent Samples.

(** C7, as the code has it: when the re-evaluated readiness is not ready,
    the endpoint answers rejected with an error text, the readiness score
    and the recommendations, the answer holds no compute limits, and the
    inference engine is not invoked (nothing is recorded either). *)
Theorem execute_task_rejects (Res : Type)
    (process_task : task_data -> Res + string)
    (m : monitor) (p : probes) (td : task_data) (start_time end_time : Q) :
  let readiness := snd (get_ai_compute_readiness m p) in
  let out := execute_task process_task m p td start_time end_time in
  ready_for_ai readiness = false ->
  snd (fst out) =
    [("status"%string, VStr "rejected");
     ("error"%string, VStr "System not ready for AI compute");
     ("readiness_score"%string, VInt (readiness_score readiness));
     ("recommendations"%string, VStrs (recommendations readiness))]
  /\ carries_limits (snd (fst out)) = false
  /\ snd out = []
  /\ engine_called (snd out) = false
  /\ fst (fst out) = fst (get_ai_compute_readiness m p).
Proof.
  intros readiness out Hr. subst readiness out. unfold execute_task.
  destruct (get_ai_compute_readiness m p) as [m' r]. simpl in *.
  rewrite Hr. simpl. repeat split.
Qed.

(** When the readiness is ready, the engine is invoked once, with the
    compute limits attached. *)
Lemma execute_task_accepts (Res : Type)
    (process_task : task_data -> Res + string)
    (m : monitor) (p : probes) (td : task_data) (start_time end_time : Q) :
  let readiness := snd (get_ai_compute_readiness m p) in
  let out := execute_task process_task m p td start_time end_time in
  ready_for_ai readiness = true ->
  exists status,
    snd out =
      [ProcessTask {| td_id := td_id td; td_body := td_body td;
                      td_compute_limits := Some (limits readiness) |};
       RecordTask (td_id td) status (end_time - start_time)%Q]
    /\ field "status" (snd (fst out)) = Some (VStr status)
    /\ (status = "completed"%string \/ status = "failed"%string).
Proof.
  intros readiness out Hr. subst readiness out. unfold execute_task.
  destruct (get_ai_compute_readiness m p) as [m' r]. simpl in *.
  rewrite Hr. simpl.
  destruct (process_task _); simpl; eauto.
Qed.

(** C7 fails as worded: on battery at 15 percent the request is rejected,
    and the answer has status, error, score and recommendations but no
    compute limits under any key. *)
Lemma rejected_without_limits_counterexample :
  let out := execute_task echo_engine (init 0) probes_low_battery request
               100 101 in
  ready_for_ai (snd (get_ai_compute_readiness (init 0) probes_low_battery))
    = false
  /\ map fst (snd (fst out))
     = ["status"; "error"; "readiness_score"; "recommendations"]%string
  /\ field "status" (snd (fst out)) = Some (VStr "rejected")
  /\ field "compute_limits" (snd (fst out)) = None
  /\ carries_limits (snd (fst out)) = false.
Proof. vm_compute. repeat split. Qed.

End ExecuteFacts.

(** ** The agent main loop *)

Section LoopFacts.
Import Agent Samples.

Lemma loop_cons (c : Z) (i : tick_input) (rest : list (option tick_input)) :
  loop c (Some i :: rest) = snd (tick c i) :: loop (fst (tick c i)) rest.
Proof. simpl. destruct (tick c i). reflexivity. Qed.

Lemma tick_cases (c : Z) (i : tick_input) :
  (hb_ok i = true /\ tick c i = (0, [Heartbeat true]))
  \/ (hb_ok i = false /\ c + 1 < 5 /\ tick c i = (c + 1, [Heartbeat false]))
  \/ (hb_ok i = false /\ 5 <= c + 1
      /\ tick c i = (0, [Heartbeat false; Register (reg_ok i)])).
Proof.
  unfold tick, max_consecutive_failures. destruct (hb_ok i); [auto|].
  destruct (5 <=? c + 1) eqn:E; [right; right|right; left];
    repeat split; lia.
Qed.

Lemma tick_counter (c : Z) (i : tick_input) :
  0 <= c ->
  0 <= fst (tick c i) <= c + 1
  /\ (reregisters (snd (tick c i)) = true -> fst (tick c i) = 0)
  /\ (0 < fst (tick c i) ->
      hb_ok i = false /\ reregisters (snd (tick c i)) = false).
Proof.
  intros Hc.
  destruct (tick_cases c i) as [(H & ->)|[(H & Hlt & ->)|(H & Hge & ->)]];
    simpl; repeat split; auto; try lia; discriminate.
Qed.

Lemma loop_length (c : Z) (inputs : list tick_input) :
  length (loop c (map Some inputs)) = length inputs.
Proof.
  revert c. induction inputs as [|i r IH]; intros c; [reflexivity|].
  cbn [map]. rewrite loop_cons. simpl. now rewrite IH.
Qed.

(** A re-registration needs the counter to have climbed to five: the
    ticks since the counter was [c] make up for what is missing, and the
    last five of them (as many as there are) all failed without
    re-registering. *)
Lemma reregister_needs_failures (inputs : list tick_input) :
  forall (c : Z) (k : nat) (ev : list event),
    0 <= c ->
    loop c (map Some inputs) !! k = Some ev ->
    reregisters ev = true ->
    4 <= Z.of_nat k + c
    /\ forall d : nat, (d <= k)%nat -> (d <= 4)%nat ->
         (exists i, inputs !! (k - d)%nat = Some i /\ hb_ok i = false)
         /\ ((1 <= d)%nat ->
             exists ev', loop c (map Some inputs) !! (k - d)%nat = Some ev'
                         /\ reregisters ev' = false).
Proof.
  induction inputs as [|i r IH]; intros c k ev Hc Hk Hev; [discriminate|].
  cbn [map] in *. rewrite loop_cons in *.
  destruct (tick_counter c i Hc) as (Hrange & Hreset & Hpos).
  destruct k as [|k']; simpl in Hk.
  - inversion Hk; subst ev.
    destruct (tick_cases c i) as [(H & E)|[(H & Hlt & E)|(H & Hge & E)]];
      rewrite E in Hev; try discriminate.
    split; [lia|]. intros d Hd _. assert (d = 0%nat) as -> by lia.
    split; [exists i; auto|lia].
  - destruct (IH (fst (tick c i)) k' ev ltac:(lia) Hk Hev) as [Hsum Hlast].
    split; [lia|]. intros d Hd H4.
    destruct (decide (d <= k')%nat) as [Hle|Hgt].
    + replace (S k' - d)%nat with (S (k' - d)) by lia. simpl.
      apply Hlast; assumption.
    + assert (d = S k') as -> by lia.
      replace (S k' - S k')%nat with 0%nat by lia. simpl.
      destruct Hpos as [Hf Hn]; [lia|].
      split; [exists i; auto|]. intros _. eauto.
Qed.

(** After a re-registration the loop goes on as it started. *)
Lemma loop_after_reregister (inputs : list tick_input) :
  forall (c : Z) (k : nat) (ev : list event),
    0 <= c ->
    loop c (map Some inputs) !! k = Some ev ->
    reregisters ev = true ->
    forall n : nat,
      loop c (map Some inputs) !! (S k + n)%nat
      = loop 0 (map Some (drop (S k) inputs)) !! n.
Proof.
  induction inputs as [|i r IH]; intros c k ev Hc Hk Hev n; [discriminate|].
  cbn [map] in *. rewrite loop_cons in *.
  destruct (tick_counter c i Hc) as (Hrange & Hreset & _).
  destruct k as [|k']; simpl in Hk.
  - inversion Hk; subst ev. rewrite (Hreset Hev). reflexivity.
  - simpl. apply (IH (fst (tick c i)) k' ev); [lia|exact Hk|exact Hev].
Qed.

(** C10: the tick on which the counter reaches five makes one
    re-registration attempt and leaves the counter at 0 whatever the
    attempt returned; the loop runs every tick whatever the registrations
    return; from the start and after each re-registration, the next one
    needs five further heartbeat failures in a row. *)
Theorem main_loop_reregistration :
  (forall c i,
     hb_ok i = false -> 5 <= c + 1 ->
     tick c i = (0, [Heartbeat false; Register (reg_ok i)])
     /\ registrations (snd (tick c i)) = 1%nat)
  /\ (forall c i,
        reregisters (snd (tick c i)) = true ->
        hb_ok i = false /\ 5 <= c + 1)
  /\ (forall c h r1 r2,
        fst (tick c {| hb_ok := h; reg_ok := r1 |})
        = fst (tick c {| hb_ok := h; reg_ok := r2 |}))
  /\ (forall inputs,
        length (main_loop true (map Some inputs)) = length inputs)
  /\ (forall inputs k ev,
        main_loop true (map Some inputs) !! k = Some ev ->
        reregisters ev = true ->
        (4 <= k)%nat
        /\ forall d : nat, (d <= 4)%nat ->
             exists i, inputs !! (k - d)%nat = Some i /\ hb_ok i = false)
  /\ (forall inputs k j evk evj,
        (k < j)%nat ->
        main_loop true (map Some inputs) !! k = Some evk ->
        reregisters evk = true ->
        main_loop true (map Some inputs) !! j = Some evj ->
        reregisters evj = true ->
        (k + 5 <= j)%nat
        /\ forall d : nat, (d <= 4)%nat ->
             exists i, inputs !! (j - d)%nat = Some i /\ hb_ok i = false).
Proof.
  repeat apply conj.
  - intros c i Hf Hc.
    destruct (tick_cases c i) as [(H & E)|[(H & Hlt & E)|(H & Hge & E)]];
      try congruence; try lia.
    rewrite E. split; reflexivity.
  - intros c i Hr.
    destruct (tick_cases c i) as [(H & E)|[(H & Hlt & E)|(H & Hge & E)]];
      rewrite E in Hr; try discriminate. auto.
  - intros c h r1 r2. unfold tick. simpl.
    destruct h; [reflexivity|].
    destruct (max_consecutive_failures <=? c + 1); reflexivity.
  - intros inputs. apply loop_length.
  - intros inputs k ev Hk Hev. unfold main_loop in Hk.
    destruct (reregister_needs_failures inputs 0 k ev ltac:(lia) Hk Hev)
      as [Hsum Hlast].
    split; [lia|]. intros d Hd. apply Hlast; lia.
  - intros inputs k j evk evj Hkj Hk Hevk Hj Hevj. unfold main_loop in *.
    pose proof (loop_after_reregister inputs 0 k evk ltac:(lia) Hk Hevk
                  (j - S k)%nat) as Hshift.
    replace (S k + (j - S k))%nat with j in Hshift by lia.
    rewrite Hj in Hshift. symmetry in Hshift.
    destruct (reregister_needs_failures (drop (S k) inputs) 0 (j - S k)%nat
                evj ltac:(lia) Hshift Hevj) as [Hsum Hlast].
    split; [lia|]. intros d Hd.
    destruct (Hlast d ltac:(lia) Hd) as [(i & Hi & Hf) _].
    exists i. split; [|exact Hf].
    rewrite lookup_drop in Hi. rewrite <- Hi. f_equal. lia.
Qed.

End LoopFacts.

(** ** Worked instances *)

Section Instances.
Import Power Monitor Sorting Scheduler Agent Samples.

(** The same waiting monitor read at 200 s and at 400 s, plugged in and
    quiet: not idle with score 65, then idle with score 80. *)
Lemma readiness_score_monotone_witness :
  Monitor.readiness_score
    (snd (get_ai_compute_readiness waiting (probes_waiting_at 200)))
  <= Monitor.readiness_score
       (snd (get_ai_compute_readiness waiting (probes_waiting_at 400))).
Proof.
  apply readiness_score_monotone.
  - intros H. vm_compute in H. discriminate H.
  - vm_compute. discriminate.
  - reflexivity.
  - intros H. vm_compute in H. discriminate H.
  - vm_compute. discriminate.
  - vm_compute. discriminate.
Defined.

(** Node b rejects task t1: the attempt fails and t1 is pending again. *)
Lemma schedule_task_rejected_witness :
  let out := schedule_task task_table table_update_task_status scheduler0
               task_low [node_b] rejected in
  snd out = false
  /\ reg (fst out) =
       table_update_task_status "t1" PENDING None
         (table_update_task_status "t1" RUNNING (Some "b"%string)
            (reg scheduler0))
  /\ ai_readiness_cache (fst out) = ai_readiness_cache scheduler0
  /\ task_assignments (fst out) = task_assignments scheduler0.
Proof.
  exact (schedule_task_rejected task_table table_update_task_status
           scheduler0 task_low [node_b] node_b eq_refl).
Defined.

(** On battery at 15 percent the request is turned down without a call to
    the engine. *)
Lemma execute_task_rejects_witness :
  snd (execute_task echo_engine (init 0) probes_low_battery request 100 101)
  = [].
Proof.
  exact (proj1 (proj2 (proj2
    (execute_task_rejects string echo_engine (init 0) probes_low_battery
       request 100 101 eq_refl)))).
Defined.

(** While the scheduler keeps running, both pending tasks are handed over
    in sorted order. *)
Lemma process_task_queue_order_witness :
  _process_task_queue_tick always_running [task_high; task_low]
  = sorted task_key_le [task_high; task_low].
Proof.
  apply (process_task_queue_order always_running [task_high; task_low]).
  intros k. reflexivity.
Defined.

(** A quiet sample 400 seconds into the session raises the idle flag. *)
Lemma detect_idle_state_transitions_witness :
  exists r t0,
    sampled quiet_probe = Some r
    /\ r_user_active r = false /\ low_load waiting r = true
    /\ idle_start_time waiting = Some t0
    /\ (idle_threshold_duration waiting <= clock quiet_probe - t0)%Q.
Proof.
  apply (proj1 (proj2 (proj2 (proj2 detect_idle_state_transitions)))).
  - reflexivity.
  - reflexivity.
Defined.

(** Five failed heartbeats in a row: the fifth tick re-registers. *)
Lemma main_loop_reregistration_witness :
  (4 <= 4)%nat
  /\ forall d : nat, (d <= 4)%nat ->
       exists i, replicate 5 failing !! (4 - d)%nat = Some i /\ hb_ok i = false.
Proof.
  apply (proj1 (proj2 (proj2 (proj2 (proj2 main_loop_reregistration))))
           (replicate 5 failing) 4%nat
           [Heartbeat false; Register false]).
  - reflexivity.
  - reflexivity.
Defined.

(** Mains power, idle for 1200 seconds, CPU 5, memory 30: the Idle row for
    more than 600 seconds applies. *)
Example plugged_idle_20min :
  let r := snd (get_ai_compute_readiness idle_monitor probes_plugged) in
  Monitor.readiness_score r = 90
  /\ ready_for_ai r = true
  /\ Power.max_concurrent_tasks (limits r) = 5.
Proof. vm_compute. repeat split. Qed.

(** Battery at 15 percent, in use, CPU 60, memory 75: throttled, with the
    lowest limits. *)
Example battery_15_percent :
  let r := snd (get_ai_compute_readiness (init 0) probes_low_battery) in
  should_throttle_compute low_battery = true
  /\ ready_for_ai r = false
  /\ limits r = {| max_cpu_usage := 30; max_memory_usage := 50;
                   Power.max_concurrent_tasks := 1 |}.
Proof. vm_compute. repeat split. Qed.

(** The task type is compared in lower case. *)
Example gpu_task_type_is_lowercased :
  effective_task_type
    {| task_id := "t3"; task_type := Some "GPU_Inference"%string;
       priority := None; created_at := None |} = "gpu_inference"%string
  /\ _node_meets_requirements node_b "gpu_inference" = false
  /\ _node_meets_requirements node_b "text-generation" = true.
Proof. vm_compute. repeat split. Qed.

End Instances.

(** ** The bounded buffers *)

Section BufferFacts.
Import Buffers.

Lemma py_last_short {A : Type} (n : Z) (l : list A) :
  0 < n -> Z.of_nat (length l) <= n -> py_last n l = l.
Proof.
  intros Hn Hl. unfold py_last.
  destruct (0 <? n) eqn:E; [|lia].
  replace (length l - Z.to_nat n)%nat with 0%nat by lia. reflexivity.
Qed.

Lemma py_last_length {A : Type} (n : Z) (l : list A) :
  0 < n -> Z.of_nat (length (py_last n l)) <= n.
Proof.
  intros Hn. unfold py_last. destruct (0 <? n) eqn:E; [|lia].
  rewrite length_drop. lia.
Qed.

Lemma py_last_nil {A : Type} (n : Z) : py_last n (@nil A) = [].
Proof. unfold py_last. destruct (0 <? n); apply drop_nil. Qed.

(** Trimming after every append is the same as trimming once. *)
Lemma py_last_snoc {A : Type} (n : Z) (l : list A) (x : A) :
  0 < n -> py_last n (py_last n l ++ [x]) = py_last n (l ++ [x]).
Proof.
  intros Hn.
  destruct (decide (Z.of_nat (length l) <= n)) as [Hle|Hgt].
  - now rewrite (py_last_short n l).
  - unfold py_last. destruct (0 <? n) eqn:E; [|lia].
    rewrite !length_app, length_drop. simpl.
    rewrite drop_app_le by (rewrite length_drop; lia).
    rewrite drop_drop.
    rewrite drop_app_le by lia.
    f_equal. f_equal. lia.
Qed.

(** The list stored by an append-and-trim step. *)
Lemma trim_step {A : Type} (n : Z) (l : list A) :
  0 < n ->
  (if n <? Z.of_nat (length l) then py_last n l else l) = py_last n l.
Proof.
  intros Hn. destruct (n <? Z.of_nat (length l)) eqn:E; [reflexivity|].
  symmetry. apply py_last_short; lia.
Qed.

Lemma add_sample_max (b : MetricsBuffer) (name : string) (v now : Q) :
  max_samples (add_sample b name v now) = max_samples b.
Proof. reflexivity. Qed.

Lemma get_metrics_add_sample (b : MetricsBuffer) (name other : string)
    (v now : Q) :
  0 < max_samples b ->
  get_metrics (add_sample b name v now) other =
    if bool_decide (name = other)
    then py_last (max_samples b)
           (get_metrics b other
            ++ [{| timestamp := now; value := v; metric_type := name |}])
    else get_metrics b other.
Proof.
  intros Hn. unfold get_metrics, add_sample. cbn [samples max_samples].
  case_bool_decide as Hd.
  - subst other. rewrite lookup_insert_eq. cbn [default].
    apply trim_step, Hn.
  - now rewrite lookup_insert_ne.
Qed.

Lemma add_samples_max (b : MetricsBuffer) (xs : list MetricSample) :
  max_samples (add_samples b xs) = max_samples b.
Proof.
  revert b. induction xs as [|x xs IH]; intros b; [reflexivity|].
  cbn [add_samples foldl]. fold (add_samples (add_sample b (metric_type x)
    (value x) (timestamp x)) xs). now rewrite IH.
Qed.

Lemma add_samples_snoc (b : MetricsBuffer) (xs : list MetricSample)
    (x : MetricSample) :
  add_samples b (xs ++ [x])
  = add_sample (add_samples b xs) (metric_type x) (value x) (timestamp x).
Proof. unfold add_samples. now rewrite foldl_app. Qed.

(** X1: with a positive bound, a metric's buffer holds the most recent
    samples of that metric, oldest first, and never more than the bound;
    samples of other metrics do not count against it. *)
Theorem metrics_buffer_keeps_latest (n : Z) (xs : list MetricSample)
    (name : string) :
  0 < n ->
  let of_name := List.filter (fun x => bool_decide (metric_type x = name)) xs in
  get_metrics (add_samples (new_buffer n) xs) name = py_last n of_name
  /\ Z.of_nat (length (get_metrics (add_samples (new_buffer n) xs) name)) <= n.
Proof.
  intros Hn of_name.
  assert (H : get_metrics (add_samples (new_buffer n) xs) name
              = py_last n of_name).
  { subst of_name. induction xs as [|x xs IH] using rev_ind.
    - cbn [List.filter]. rewrite py_last_nil. unfold get_metrics.
      cbn [add_samples foldl new_buffer samples]. now rewrite lookup_empty.
    - rewrite add_samples_snoc, get_metrics_add_sample
        by (rewrite add_samples_max; exact Hn).
      rewrite add_samples_max. cbn [max_samples new_buffer].
      rewrite List.filter_app. cbn [List.filter].
      case_bool_decide as Hd.
      + rewrite IH, py_last_snoc by exact Hn. destruct x; simpl in *.
        now subst.
      + now rewrite app_nil_r. }
  split; [exact H|]. rewrite H. apply py_last_length, Hn.
Qed.

(** X2: a buffer created with bound 0 is never trimmed: the slice
    [l[-0:]] is the whole list, so every sample ever added stays. *)
Theorem metrics_buffer_zero_bound_keeps_all (xs : list MetricSample)
    (name : string) :
  get_metrics (add_samples (new_buffer 0) xs) name
  = List.filter (fun x => bool_decide (metric_type x = name)) xs.
Proof.
  induction xs as [|x xs IH] using rev_ind; [reflexivity|].
  rewrite add_samples_snoc, List.filter_app. cbn [List.filter].
  unfold get_metrics, add_sample in *. cbn [samples max_samples].
  rewrite add_samples_max. cbn [max_samples new_buffer].
  case_bool_decide as Hd.
  - subst name. rewrite lookup_insert_eq. cbn [default].
    rewrite IH. unfold py_last. simpl.
    destruct x; simpl.
    destruct (0 <? Z.of_nat _); reflexivity.
  - rewrite lookup_insert_ne by exact Hd. now rewrite app_nil_r.
Qed.

Lemma record_tasks_snoc (g : task_log) (rs : list task_record)
    (r : task_record) :
  record_tasks g (rs ++ [r]) = record_task (record_tasks g rs) r.
Proof. unfold record_tasks. now rewrite foldl_app. Qed.

Lemma record_tasks_max (g : task_log) (rs : list task_record) :
  max_history (record_tasks g rs) = max_history g.
Proof.
  induction rs as [|r rs IH] using rev_ind; [reflexivity|].
  now rewrite record_tasks_snoc.
Qed.

(** X3: the task history of a monitor is the last 1000 recorded tasks,
    oldest first; in general, a log with a positive bound that starts
    empty holds the most recent records up to the bound. *)
Theorem task_history_keeps_latest (n : Z) (rs : list task_record) :
  0 < n ->
  let g := record_tasks {| max_history := n; task_history := [] |} rs in
  task_history g = py_last n rs
  /\ Z.of_nat (length (task_history g)) <= n
  /\ (Z.of_nat (length rs) <= n -> task_history g = rs).
Proof.
  intros Hn g.
  assert (H : task_history g = py_last n rs).
  { subst g. induction rs as [|r rs IH] using rev_ind.
    - now rewrite py_last_nil.
    - rewrite record_tasks_snoc. unfold record_task. cbn [task_history].
      rewrite record_tasks_max. cbn [max_history].
      rewrite trim_step by exact Hn.
      rewrite IH. apply py_last_snoc, Hn. }
  split; [exact H|]. split.
  - rewrite H. apply py_last_length, Hn.
  - intros Hle. rewrite H. apply py_last_short; assumption.
Qed.

End BufferFacts.

(** ** Status, advice and limits *)

Section AdviceFacts.
Import Power Monitor Buffers.

(** X4: the overall status never improves when CPU and memory usage grow;
    a machine reported critical earns no Resources points and a machine
    reported healthy earns at least 10 (on the same readings). *)
Theorem overall_status_severity :
  (forall c1 m1 c2 m2 : Q,
     (c1 <= c2)%Q -> (m1 <= m2)%Q ->
     severity (_get_overall_status (Some (c1, m1)))
     <= severity (_get_overall_status (Some (c2, m2))))
  /\ (forall c m : Q,
        _get_overall_status (Some (c, m)) = "critical"%string ->
        resource_points c m = 0)
  /\ (forall c m : Q,
        _get_overall_status (Some (c, m)) = "healthy"%string ->
        10 <= resource_points c m).
Proof.
  repeat apply conj.
  - intros c1 m1 c2 m2 Hc Hm. unfold _get_overall_status.
    qcases; simpl; try (vm_compute; discriminate); lra.
  - intros c m. unfold _get_overall_status, resource_points.
    qcases; simpl; try discriminate; try reflexivity; intros _; lra.
  - intros c m. unfold _get_overall_status, resource_points.
    qcases; simpl; try discriminate; intros _; try lia; lra.
Qed.

Lemma recommendations_ready_iff (sc : Z) (i : IdleState) (b : battery_info)
    (cpu mem : Q) :
  let recs := _get_compute_recommendations sc i b cpu mem in
  let ready := "System ready for AI compute tasks"%string in
  recs <> []
  /\ (In ready recs -> recs = [ready])
  /\ (In ready recs <->
      60 <= sc /\ is_idle i = true /\ (600 <= idle_duration i)%Q
      /\ (on_battery b = true -> (50 <= battery_level b)%Q)
      /\ (cpu <= 80)%Q /\ (mem <= 85)%Q).
Proof.
  intros recs ready. subst recs ready. unfold _get_compute_recommendations.
  destruct (Z.leb_spec 60 sc) as [E|E];
    destruct (Z.ltb_spec sc 30) as [E30|E30]; try lia;
    destruct (Z.ltb_spec sc 60) as [E60|E60]; try lia;
    destruct (is_idle i); destruct (on_battery b); simpl;
    qcases; simpl;
    (split; [discriminate|]);
    (split; [intros H; repeat (destruct H as [H|H]; try discriminate H);
             try reflexivity; try contradiction
            |split;
             [intros H; repeat (destruct H as [H|H]; try discriminate H);
              try contradiction;
              repeat split; try lia; try lra; try (intros _; lra);
              try discriminate
             |intros (H1 & H2 & H3 & H4 & H5 & H6);
              try discriminate H2; try lia; try lra;
              try (specialize (H4 eq_refl); lra);
              left; reflexivity]]).
Qed.

(** X5: the advice list is never empty, and the message that the system
    is ready is given only alone, exactly when the score is at least 60,
    the machine has been idle for at least 600 s, the battery (if in use)
    is at 50 or more, and CPU and memory are at most 80 and 85. *)
Theorem recommendations_never_empty (sc : Z) (i : IdleState)
    (b : battery_info) (cpu mem : Q) :
  let recs := _get_compute_recommendations sc i b cpu mem in
  let ready := "System ready for AI compute tasks"%string in
  recs <> []
  /\ (In ready recs -> recs = [ready])
  /\ (In ready recs <->
      60 <= sc /\ is_idle i = true /\ (600 <= idle_duration i)%Q
      /\ (on_battery b = true -> (50 <= battery_level b)%Q)
      /\ (cpu <= 80)%Q /\ (mem <= 85)%Q).
Proof. apply recommendations_ready_iff. Qed.

End AdviceFacts.

Section ReadinessConsequences.
Import Power Monitor.

Lemma readiness_recommendations (m : monitor) (p : probes) :
  let r := snd (get_ai_compute_readiness m p) in
  recommendations r =
    _get_compute_recommendations (readiness_score r) (idle_state r)
      (power_state r) (p_cpu_rec p) (p_mem_rec p).
Proof.
  unfold get_ai_compute_readiness.
  destruct (detect_idle_state m (p_idle p)) as [m' i]. reflexivity.
Qed.

(** X6: when the battery reads the same at the throttle test as for the
    snapshot, a snapshot that advises that the system is ready has its
    ready flag set. *)
Theorem ready_advice_implies_ready (m : monitor) (p : probes) :
  p_battery_throttle p = p_battery_info p ->
  let r := snd (get_ai_compute_readiness m p) in
  In "System ready for AI compute tasks"%string (recommendations r) ->
  ready_for_ai r = true.
Proof.
  intros Heq r Hin. subst r. rewrite readiness_recommendations in Hin.
  apply recommendations_ready_iff in Hin as (Hs & _ & _ & Hb & _).
  apply ready_for_ai_snapshot; [exact Heq|]. split; [exact Hs|].
  intros [Hon Hlt]. specialize (Hb Hon). lra.
Qed.

Lemma detect_idle_state_active_not_idle (m : monitor) (p : idle_probe) :
  user_active (snd (detect_idle_state m p)) = true ->
  is_idle (snd (detect_idle_state m p)) = false.
Proof.
  unfold detect_idle_state. destruct (sampled p) as [r|]; simpl; [|reflexivity].
  intros H. apply idle_update_active, H.
Qed.

(** X7: while the user is active the score is at most 65, and the machine
    is ready only with CPU below 20, memory below 50, and mains power or a
    battery above 80. *)
Theorem user_active_limits_readiness (m : monitor) (p : probes) :
  let r := snd (get_ai_compute_readiness m p) in
  user_active (idle_state r) = true ->
  readiness_score r <= 65
  /\ (ready_for_ai r = true ->
      (cpu_usage (current_resources r) < 20)%Q
      /\ (memory_usage (current_resources r) < 50)%Q
      /\ (on_battery (power_state r) = false
          \/ (80 < battery_level (power_state r))%Q)).
Proof.
  intros r Hact.
  destruct (readiness_fields m p) as (Hi & Hp & _ & Hc & Hm & Hs & Hr).
  fold r in Hi, Hp, Hc, Hm, Hs, Hr.
  rewrite Hi in Hact. apply detect_idle_state_active_not_idle in Hact.
  rewrite Hr, Hs, Hc, Hm, Hp. unfold compute_score, idle_points. rewrite Hact.
  generalize (get_battery_info (p_battery_info p)). intros b.
  unfold power_points, resource_points.
  destruct (on_battery b); simpl; qcases; simpl;
    (split; [lia|]); intros H;
    try (simpl in H; discriminate H);
    try (apply andb_true_iff in H as [H _]; apply Z.leb_le in H; lia);
    (split; [lra|split; [lra|]]);
    first [left; reflexivity | right; lra].
Qed.

(** X8: when the battery reads the same for the limits as at the throttle
    test, a ready snapshot never carries the lowest limits: it allows at
    least two concurrent tasks, 50 percent CPU and 70 percent memory. *)
Theorem ready_limits_above_lowest (m : monitor) (p : probes) :
  p_battery_limits p = p_battery_throttle p ->
  let r := snd (get_ai_compute_readiness m p) in
  ready_for_ai r = true ->
  2 <= Power.max_concurrent_tasks (limits r)
  /\ 50 <= max_cpu_usage (limits r)
  /\ 70 <= max_memory_usage (limits r).
Proof.
  intros Heq r Hr.
  destruct (readiness_fields m p) as (_ & _ & Hl & _ & _ & _ & Hf).
  fold r in Hl, Hf. rewrite Hf in Hr. apply andb_true_iff in Hr as [_ Ht].
  apply negb_true_iff in Ht. rewrite Hl, Heq.
  unfold should_throttle_compute in Ht. unfold get_compute_limits.
  destruct (on_battery (get_battery_info (p_battery_throttle p)));
    simpl in *; [|lia].
  rewrite Ht. destruct (Qltb _ 50); simpl; lia.
Qed.

End ReadinessConsequences.

Section IdleSessions.
Import Monitor.

Lemma idle_update_session (m : monitor) (r : reading) (t : Q) :
  (currently_idle m = true -> is_Some (idle_start_time m)) ->
  currently_idle (idle_update m r t) = true ->
  is_Some (idle_start_time (idle_update m r t)).
Proof.
  intros Hinv. unfold idle_update.
  destruct (r_user_active r); [discriminate|].
  destruct (low_load m r); simpl.
  - destruct (currently_idle m) eqn:Hc; simpl; [intros _; auto|].
    destruct (idle_start_time m) as [t0|] eqn:Hs; simpl; [|discriminate].
    destruct (Qltb _ _); simpl; [eauto|]. rewrite Hc. discriminate.
  - discriminate.
Qed.

(** X9: along any sequence of calls from a fresh monitor, an idle monitor
    always has a session start on record; and a call made while no session
    is on record never raises the idle flag, whatever the clock says. *)
Theorem idle_needs_session :
  (forall now ps,
     Forall (fun m => currently_idle m = true -> is_Some (idle_start_time m))
            (run_idle (init now) ps))
  /\ (forall m p,
        currently_idle m = false -> idle_start_time m = None ->
        currently_idle (fst (detect_idle_state m p)) = false).
Proof.
  split.
  - intros now ps.
    assert (G : forall m,
      (currently_idle m = true -> is_Some (idle_start_time m)) ->
      Forall (fun m => currently_idle m = true -> is_Some (idle_start_time m))
             (run_idle m ps)).
    { induction ps as [|p ps IH]; intros m Hm; simpl; [constructor|].
      assert (Hstep : currently_idle (fst (detect_idle_state m p)) = true ->
                      is_Some (idle_start_time (fst (detect_idle_state m p)))).
      { unfold detect_idle_state. destruct (sampled p) as [r|]; simpl;
          [apply idle_update_session, Hm|exact Hm]. }
      constructor; [exact Hstep|apply IH, Hstep]. }
    apply G. discriminate.
  - intros m p Hc Hs.
    destruct (currently_idle (fst (detect_idle_state m p))) eqn:E; [|reflexivity].
    unfold detect_idle_state in E. destruct (sampled p) as [r|]; simpl in E;
      [|congruence].
    destruct (idle_update_raise m r (clock p) Hc E) as (_ & _ & t0 & Ht0 & _).
    congruence.
Qed.

(** X10: an idle monitor stays as it is on every quiet sample (user
    inactive, load low), and reports the time since the session start. *)
Theorem idle_is_sticky (m : monitor) (r : reading) (t t0 : Q) :
  currently_idle m = true ->
  idle_start_time m = Some t0 ->
  r_user_active r = false ->
  low_load m r = true ->
  let out := detect_idle_state m {| sampled := Some r; clock := t |} in
  fst out = m
  /\ is_idle (snd out) = true
  /\ idle_duration (snd out) = (t - t0)%Q.
Proof.
  intros Hc Hs Ha Hl. unfold detect_idle_state. cbn [sampled clock fst snd].
  assert (E : idle_update m r t = m).
  { unfold idle_update. rewrite Ha, Hl, Hc. reflexivity. }
  rewrite E. cbn [is_idle idle_duration]. rewrite Hc, Hs. auto.
Qed.

End IdleSessions.

(** ** The readiness cache *)

Section CacheFacts.
Import Scheduler Cache.
Context {V : Type}.
Variable fsub : Q -> Q -> Q.

Lemma ttl_value : (readiness_cache_ttl == 30)%Q.
Proof. reflexivity. Qed.

(** The fetch of [_get_ai_readiness], once the cache has no fresh entry. *)
Lemma get_ai_readiness_miss (cache : gmap string (option V * Q))
    (node_id : string) (t : Q) (n : option node) (reply : fetch_reply V) :
  (forall c tc, cache !! node_id = Some (c, tc) -> (30 <= fsub t tc)%Q) ->
  _get_ai_readiness fsub cache node_id t n reply =
    match n with
    | Some nd =>
        match host nd, port nd, reply with
        | Some _, Some _, FetchReply 200 (Some body) =>
            (<[node_id := (body, t)]> cache, body)
        | _, _, _ => (cache, None)
        end
    | None => (cache, None)
    end.
Proof.
  intros Hold. unfold _get_ai_readiness.
  assert (E : match n with
              | None => (cache, None)
              | Some n0 =>
                  match host n0, port n0 with
                  | Some _, Some _ =>
                      match reply with
                      | FetchReply code body =>
                          if code =? 200 then
                            match body with
                            | Some readiness =>
                                (<[node_id := (readiness, t)]> cache, readiness)
                            | None => (cache, None)
                            end
                          else (cache, None)
                      | FetchError => (cache, None)
                      end
                  | _, _ => (cache, None)
                  end
              end
              = match n with
                | Some nd =>
                    match host nd, port nd, reply with
                    | Some _, Some _, FetchReply 200 (Some body) =>
                        (<[node_id := (body, t)]> cache, body)
                    | _, _, _ => (cache, @None V)
                    end
                | None => (cache, None)
                end).
  { destruct n as [nd|]; [|reflexivity].
    destruct (host nd), (port nd); try reflexivity.
    destruct reply as [code body|]; [|reflexivity].
    destruct (code =? 200) eqn:Ec.
    - apply Z.eqb_eq in Ec. subst code. destruct body; reflexivity.
    - destruct code as [|q|q]; try reflexivity.
      repeat (destruct q as [q|q|]; try reflexivity); discriminate Ec. }
  destruct (cache !! node_id) as [[c tc]|] eqn:Hc; [|exact E].
  destruct (Qltb (fsub t tc) readiness_cache_ttl) eqn:Ef; [|exact E].
  apply Qltb_lt in Ef. specialize (Hold c tc eq_refl).
  pose proof ttl_value. lra.
Qed.

Lemma get_ai_readiness_hit (cache : gmap string (option V * Q))
    (node_id : string) (t : Q) (n : option node) (reply : fetch_reply V)
    (c : option V) (tc : Q) :
  cache !! node_id = Some (c, tc) -> (fsub t tc < 30)%Q ->
  _get_ai_readiness fsub cache node_id t n reply = (cache, c).
Proof.
  intros Hc Hf. unfold _get_ai_readiness. rewrite Hc.
  destruct (Qltb (fsub t tc) readiness_cache_ttl) eqn:Ef; [reflexivity|].
  apply Qltb_ge in Ef. pose proof ttl_value. lra.
Qed.

(** Either an entry is fresh, or every entry for the node is stale. *)
Lemma fresh_or_stale (cache : gmap string (option V * Q)) (node_id : string)
    (t : Q) :
  (exists c tc, cache !! node_id = Some (c, tc) /\ (fsub t tc < 30)%Q)
  \/ (forall c tc, cache !! node_id = Some (c, tc) -> (30 <= fsub t tc)%Q).
Proof.
  destruct (cache !! node_id) as [[c tc]|]; [|right; discriminate].
  destruct (Qlt_le_dec (fsub t tc) 30) as [Hlt|Hge].
  - left. eauto.
  - right. intros c' tc' [= <- <-]. exact Hge.
Qed.

(** X11: a snapshot handed out by the lookup is either a cached one whose
    age, as the float difference of the two stamps, is below 30, with the
    cache left alone, or one fetched just now with status 200 for a node
    with an address and stored with the current time, and then only if
    the entry for the node, if any, has an age of 30 or more. A lookup that
    hands out nothing leaves the cache as it was, stale entry included,
    unless the agent answered 200 with a null body, which is stored. *)
Theorem get_ai_readiness_result (cache : gmap string (option V * Q))
    (node_id : string) (t : Q) (n : option node) (reply : fetch_reply V) :
  let out := _get_ai_readiness fsub cache node_id t n reply in
  let fetched body :=
    fst out = <[node_id := (body, t)]> cache
    /\ reply = FetchReply 200 (Some body)
    /\ (exists nd, n = Some nd /\ is_Some (host nd) /\ is_Some (port nd))
    /\ forall c tc, cache !! node_id = Some (c, tc) -> (30 <= fsub t tc)%Q in
  match snd out with
  | Some v =>
      (fst out = cache
       /\ exists tc, cache !! node_id = Some (Some v, tc) /\ (fsub t tc < 30)%Q)
      \/ fetched (Some v)
  | None => fst out = cache \/ fetched None
  end.
Proof.
  intros out fetched. subst out fetched.
  destruct (fresh_or_stale cache node_id t) as [(c & tc & Hc & Hf)|Hold].
  - rewrite (get_ai_readiness_hit cache node_id t n reply c tc Hc Hf).
    cbn [fst snd]. destruct c as [v|]; left; eauto.
  - rewrite (get_ai_readiness_miss cache node_id t n reply Hold).
    destruct n as [nd|]; [|left; reflexivity].
    destruct (host nd) as [h|] eqn:Hh; [|left; reflexivity].
    destruct (port nd) as [q|] eqn:Hq; [|left; reflexivity].
    destruct reply as [code body|]; [|left; reflexivity].
    destruct code as [|c|c]; try (left; reflexivity).
    repeat (destruct c as [c|c|]; try (left; reflexivity)).
    destruct body as [body|]; [|left; reflexivity].
    cbn [fst snd].
    assert (Hn : exists nd0, Some nd = Some nd0
                   /\ is_Some (host nd0) /\ is_Some (port nd0)).
    { exists nd. rewrite Hh, Hq. eauto. }
    destruct body as [v|]; right; auto.
Qed.

(** X12: after a fetch answered with status 200 at time [t0], every
    lookup of that node made while the float age is below 30 hands out the
    fetched body from the cache, whatever the registry and the agent would
    answer. *)
Theorem get_ai_readiness_round_trip (cache : gmap string (option V * Q))
    (node_id : string) (t0 : Q) (nd : node) (body : option V) :
  is_Some (host nd) -> is_Some (port nd) ->
  (forall c tc, cache !! node_id = Some (c, tc) -> (30 <= fsub t0 tc)%Q) ->
  let out := _get_ai_readiness fsub cache node_id t0 (Some nd)
               (FetchReply 200 (Some body)) in
  out = (<[node_id := (body, t0)]> cache, body)
  /\ forall t n reply,
       (fsub t t0 < 30)%Q ->
       _get_ai_readiness fsub (fst out) node_id t n reply = (fst out, body).
Proof.
  intros [h Hh] [q Hq] Hold out.
  assert (E : out = (<[node_id := (body, t0)]> cache, body)).
  { subst out. rewrite get_ai_readiness_miss by exact Hold.
    now rewrite Hh, Hq. }
  split; [exact E|]. rewrite E. cbn [fst]. intros t n reply Ht.
  apply (get_ai_readiness_hit _ node_id t n reply body t0); [|exact Ht].
  apply lookup_insert_eq.
Qed.

Lemma cleanup_lookup (cache : gmap string (option V * Q)) (now : Q)
    (i : string) (v : option V) (t : Q) :
  _cleanup_readiness_cache fsub cache now !! i = Some (v, t)
  <-> cache !! i = Some (v, t) /\ (fsub now t <= 30)%Q.
Proof.
  unfold _cleanup_readiness_cache. rewrite map_lookup_filter_Some. simpl.
  rewrite Qltb_ge. pose proof ttl_value as Httl. split; intros [H1 H2];
    (split; [exact H1|]); lra.
Qed.

(** X13: a cleanup pass keeps, unchanged, exactly the entries whose age,
    as the float difference of the stamps, is at most 30; what a lookup
    hands out at the time of the pass, or at any time at which no entry
    looks younger than it did at the pass, is the same with and without
    the pass; and a second pass at the same time changes nothing more. *)
Theorem cleanup_readiness_cache_spec (cache : gmap string (option V * Q))
    (now : Q) :
  let cleaned := _cleanup_readiness_cache fsub cache now in
  (forall i v t,
     cleaned !! i = Some (v, t)
     <-> cache !! i = Some (v, t) /\ (fsub now t <= 30)%Q)
  /\ (forall i t n reply,
        (forall tc, (fsub now tc <= fsub t tc)%Q) ->
        snd (_get_ai_readiness fsub cleaned i t n reply)
        = snd (_get_ai_readiness fsub cache i t n reply))
  /\ _cleanup_readiness_cache fsub cleaned now = cleaned.
Proof.
  intros cleaned. split; [intros; apply cleanup_lookup|]. split.
  - intros i t n reply Hlater.
    destruct (fresh_or_stale cache i t) as [(c & tc & Hc & Hf)|Hold].
    + rewrite (get_ai_readiness_hit cache i t n reply c tc Hc Hf).
      rewrite (get_ai_readiness_hit cleaned i t n reply c tc);
        [reflexivity| |exact Hf].
      apply cleanup_lookup. split; [exact Hc|]. specialize (Hlater tc). lra.
    + rewrite (get_ai_readiness_miss cache i t n reply Hold).
      rewrite (get_ai_readiness_miss cleaned i t n reply).
      * destruct n as [nd|]; [|reflexivity].
        destruct (host nd), (port nd); try reflexivity.
        destruct reply as [code body|]; [|reflexivity].
        destruct code as [|c|c]; try reflexivity.
        repeat (destruct c as [c|c|]; try reflexivity).
        destruct body; reflexivity.
      * intros c tc Hc. apply cleanup_lookup in Hc as [Hc _].
        exact (Hold c tc Hc).
  - apply map_eq. intros i.
    destruct (cleaned !! i) as [[v t]|] eqn:Hc.
    + apply cleanup_lookup. split; [exact Hc|].
      apply cleanup_lookup in Hc as [_ Hc]. exact Hc.
    + destruct (_cleanup_readiness_cache fsub cleaned now !! i)
        as [[v t]|] eqn:Hc2; [|reflexivity].
      apply cleanup_lookup in Hc2 as [Hc2 _]. congruence.
Qed.

End CacheFacts.

(** ** Candidate nodes *)

Section CandidateFacts.
Import Sorting Scheduler Cache.
Variable fsub : Q -> Q -> Q.

(** One step of the scan, written out. *)
Lemma get_ai_ready_nodes_cons (cache : gmap string (option hub_readiness * Q))
    (rn : registry_node) (w : lookup_world)
    (rest : list (registry_node * lookup_world)) :
  _get_ai_ready_nodes fsub cache ((rn, w) :: rest) =
    if online rn then
      let lk := _get_ai_readiness fsub cache (id (info rn)) (w_time w)
                  (w_node w) (w_reply w) in
      let scan := _get_ai_ready_nodes fsub (fst lk) rest in
      (fst scan,
       match snd lk with
       | Some r =>
           if default false (h_ready_for_ai r)
           then annotate (info rn) r :: snd scan
           else snd scan
       | None => snd scan
       end)
    else _get_ai_ready_nodes fsub cache rest.
Proof.
  cbn [_get_ai_ready_nodes]. destruct (online rn); cbn [negb]; [|reflexivity].
  destruct (_get_ai_readiness fsub cache (id (info rn)) (w_time w) (w_node w)
              (w_reply w)) as [cache' [r|]]; cbn [fst snd].
  - destruct (default false (h_ready_for_ai r)).
    + destruct (_get_ai_ready_nodes fsub cache' rest); reflexivity.
    + destruct (_get_ai_ready_nodes fsub cache' rest); reflexivity.
  - destruct (_get_ai_ready_nodes fsub cache' rest); reflexivity.
Qed.

Lemma ready_flag (r : hub_readiness) :
  default false (h_ready_for_ai r) = true <-> h_ready_for_ai r = Some true.
Proof.
  destruct (h_ready_for_ai r) as [[|]|]; simpl; split; congruence.
Qed.

Lemma online_status (rn : registry_node) :
  online rn = true <-> status rn = Some "online"%string.
Proof. unfold online. apply bool_decide_eq_true. Qed.

(** The returned list holds exactly the candidates. *)
Lemma get_ai_ready_nodes_candidates
    (all_nodes : list (registry_node * lookup_world)) :
  forall (cache : gmap string (option hub_readiness * Q)) (n : node),
    In n (snd (_get_ai_ready_nodes fsub cache all_nodes))
    <-> candidate_of fsub cache all_nodes n.
Proof.
  induction all_nodes as [|[rn0 w0] rest IH]; intros cache n.
  - simpl. split; [tauto|].
    intros (pre & rn & w & post & r & E & _). destruct pre; discriminate E.
  - rewrite get_ai_ready_nodes_cons.
    set (lk := _get_ai_readiness fsub cache (id (info rn0)) (w_time w0)
                 (w_node w0) (w_reply w0)).
    assert (Hshift : forall c' : gmap string (option hub_readiness * Q),
      fst (_get_ai_ready_nodes fsub cache [(rn0, w0)]) = c' ->
      candidate_of fsub c' rest n ->
      candidate_of fsub cache ((rn0, w0) :: rest) n).
    { intros c' Hc' (pre & rn & w & post & r & E & Hon & Hlk & Hr & Hn).
      exists ((rn0, w0) :: pre), rn, w, post, r.
      split; [now rewrite E|]. split; [exact Hon|]. split; [|auto].
      rewrite <- Hlk. f_equal. f_equal.
      rewrite get_ai_ready_nodes_cons.
      rewrite get_ai_ready_nodes_cons in Hc'. fold lk in Hc' |- *.
      destruct (online rn0); cbn [fst snd _get_ai_ready_nodes] in *;
        now subst c'. }
    assert (Hback : forall c' : gmap string (option hub_readiness * Q),
      fst (_get_ai_ready_nodes fsub cache [(rn0, w0)]) = c' ->
      candidate_of fsub cache ((rn0, w0) :: rest) n ->
      (online rn0 = true
       /\ exists r, snd lk = Some r /\ h_ready_for_ai r = Some true
                    /\ n = annotate (info rn0) r)
      \/ candidate_of fsub c' rest n).
    { intros c' Hc' (pre & rn & w & post & r & E & Hon & Hlk & Hr & Hn).
      destruct pre as [|e pre].
      - left. simpl in E. inversion E; subst rn w post.
        split; [now apply online_status|]. exists r. auto.
      - right. simpl in E. inversion E; subst e rest.
        exists pre, rn, w, post, r.
        split; [reflexivity|]. split; [exact Hon|]. split; [|auto].
        rewrite <- Hlk. f_equal. f_equal.
        rewrite (get_ai_ready_nodes_cons cache rn0 w0 pre).
        rewrite get_ai_ready_nodes_cons in Hc'. fold lk in Hc' |- *.
        destruct (online rn0); cbn [fst snd _get_ai_ready_nodes] in *;
          now subst c'. }
    destruct (online rn0) eqn:Hon0.
    + specialize (Hshift (fst lk)). specialize (Hback (fst lk)).
      rewrite get_ai_ready_nodes_cons, Hon0 in Hshift, Hback.
      fold lk in Hshift, Hback. cbn [fst snd _get_ai_ready_nodes] in *.
      specialize (Hshift eq_refl). specialize (Hback eq_refl).
      destruct (snd lk) as [r|] eqn:Hlk.
      * destruct (default false (h_ready_for_ai r)) eqn:Hr.
        -- split.
           ++ intros [<-|Hin].
              ** exists [], rn0, w0, rest, r.
                 split; [reflexivity|]. split; [now apply online_status|].
                 split; [exact Hlk|]. split; [now apply ready_flag|reflexivity].
              ** apply Hshift, IH, Hin.
           ++ intros Hc. destruct (Hback Hc) as [(_ & r' & [= <-] & _ & ->)|Hc'].
              ** left. reflexivity.
              ** right. apply IH, Hc'.
        -- split.
           ++ intros Hin. apply Hshift, IH, Hin.
           ++ intros Hc. destruct (Hback Hc) as [(_ & r' & [= <-] & Hr' & _)|Hc'].
              ** apply ready_flag in Hr'. congruence.
              ** apply IH, Hc'.
      * split.
        -- intros Hin. apply Hshift, IH, Hin.
        -- intros Hc. destruct (Hback Hc) as [(_ & r' & Hr' & _)|Hc'];
             [discriminate Hr'|apply IH, Hc'].
    + specialize (Hshift cache). specialize (Hback cache).
      rewrite get_ai_ready_nodes_cons, Hon0 in Hshift, Hback.
      cbn [fst snd _get_ai_ready_nodes] in *.
      specialize (Hshift eq_refl). specialize (Hback eq_refl).
      split.
      * intros Hin. apply Hshift, IH, Hin.
      * intros Hc. destruct (Hback Hc) as [(Hon & _)|Hc'];
          [discriminate Hon|apply IH, Hc'].
Qed.

Lemma get_ai_ready_nodes_order
    (all_nodes : list (registry_node * lookup_world)) :
  forall cache : gmap string (option hub_readiness * Q),
    let out := _get_ai_ready_nodes fsub cache all_nodes in
    sublist (map id (snd out))
            (map (fun e => id (info (fst e)))
                 (List.filter (fun e => online (fst e)) all_nodes))
    /\ Forall (fun n => is_Some (readiness_score n)
                        /\ is_Some (gpu_available n)) (snd out)
    /\ (Forall (fun e => online (fst e) = false) all_nodes ->
        out = (cache, [])).
Proof.
  induction all_nodes as [|[rn w] rest IH]; intros cache.
  - simpl. repeat split; constructor.
  - cbn zeta. rewrite get_ai_ready_nodes_cons. cbn [List.filter fst].
    destruct (online rn) eqn:Hon.
    + set (lk := _get_ai_readiness fsub cache (id (info rn)) (w_time w)
                   (w_node w) (w_reply w)).
      destruct (IH (fst lk)) as (Hsub & Hset & _). cbn [fst snd map].
      split; [|split].
      * destruct (snd lk) as [r|]; [destruct (default false _)|];
          cbn [map]; constructor; exact Hsub.
      * destruct (snd lk) as [r|]; [destruct (default false _)|];
          try exact Hset.
        constructor; [split; simpl; eauto|exact Hset].
      * intros H. inversion H; subst. simpl in *. congruence.
    + destruct (IH cache) as (Hsub & Hset & Hoff).
      split; [exact Hsub|]. split; [exact Hset|].
      intros H. inversion H; subst. auto.
Qed.

(** X14: the list returned by the scan holds exactly the annotated copies
    of the registry nodes that are online and for which the lookup in
    turn, with the cache as the nodes in front left it, handed out a
    readiness that says ready; they come in registry order, each with a
    score and a GPU flag; when no node is online nothing is fetched and
    the cache is left alone. *)
Theorem get_ai_ready_nodes_spec
    (cache : gmap string (option hub_readiness * Q))
    (all_nodes : list (registry_node * lookup_world)) :
  let out := _get_ai_ready_nodes fsub cache all_nodes in
  (forall n, In n (snd out) <-> candidate_of fsub cache all_nodes n)
  /\ sublist (map id (snd out))
             (map (fun e => id (info (fst e)))
                  (List.filter (fun e => online (fst e)) all_nodes))
  /\ Forall (fun n => is_Some (readiness_score n) /\ is_Some (gpu_available n))
            (snd out)
  /\ (Forall (fun e => online (fst e) = false) all_nodes -> out = (cache, [])).
Proof.
  split; [intros n; apply get_ai_ready_nodes_candidates|].
  apply get_ai_ready_nodes_order.
Qed.

Lemma first_best_In {A : Type} (le : A -> A -> bool) (P : A -> bool)
    (l : list A) (n : A) :
  first_best le P l = Some n -> In n l.
Proof.
  revert n. induction l as [|x r IH]; intros n; simpl; [discriminate|].
  destruct (P x).
  - destruct (first_best le P r) as [y|].
    + destruct (le x y); intros [= <-]; auto.
    + intros [= <-]. auto.
  - auto.
Qed.

Lemma select_optimal_ai_node_In (t : task) (nodes : list node) (n : node) :
  _select_optimal_ai_node t nodes = Some n -> In n nodes.
Proof.
  unfold _select_optimal_ai_node. destruct nodes as [|x r]; [discriminate|].
  rewrite (find_sorted score_desc score_desc_total score_desc_trans).
  rewrite head_find, (find_sorted score_desc score_desc_total score_desc_trans).
  destruct (first_best score_desc _ (x :: r)) as [y|] eqn:F.
  - intros [= <-]. eapply first_best_In, F.
  - apply first_best_In.
Qed.

(** X15: whatever the task, the node selected among the result of a
    registry scan is the annotated copy of a registry node that is online
    and for which the lookup of the scan handed out a readiness that says
    ready, also when it is chosen by the fallback to the top-scoring
    candidate. *)
Theorem selected_node_is_ready
    (cache : gmap string (option hub_readiness * Q))
    (all_nodes : list (registry_node * lookup_world)) (t : task) (n : node) :
  _select_optimal_ai_node t (snd (_get_ai_ready_nodes fsub cache all_nodes))
    = Some n ->
  candidate_of fsub cache all_nodes n.
Proof.
  intros Hsel. apply select_optimal_ai_node_In in Hsel.
  now apply get_ai_ready_nodes_candidates.
Qed.

End CandidateFacts.

(** ** Outcomes of a schedule attempt *)

Section ScheduleFacts.
Import Scheduler.

(** X16: a schedule attempt never touches the readiness cache; it
    succeeds exactly when a node was selected, the node record has an
    address, and the agent answered 200 with a status other than rejected;
    on success the task is left running on the node and the assignment is
    recorded; on any failed dispatch the task is set back to pending and
    no assignment is recorded; with no candidate nothing changes. *)
Theorem schedule_task_outcome
    (registry : Type)
    (update_task_status :
       string -> TaskStatus -> option string -> registry -> registry)
    (s : scheduler registry) (t : task) (nodes : list node)
    (reply : execute_reply) :
  let out := schedule_task registry update_task_status s t nodes reply in
  ai_readiness_cache (fst out) = ai_readiness_cache s
  /\ (snd out = true <->
      exists best status,
        _select_optimal_ai_node t nodes = Some best
        /\ is_Some (host best) /\ is_Some (port best)
        /\ reply = Reply200 status /\ status <> Some "rejected"%string)
  /\ match _select_optimal_ai_node t nodes with
     | None => fst out = s /\ snd out = false
     | Some best =>
         let running :=
           update_task_status (task_id t) RUNNING (Some (id best)) (reg s) in
         if snd out then
           reg (fst out) = running
           /\ task_assignments (fst out)
              = <[task_id t := id best]> (task_assignments s)
         else
           reg (fst out) = update_task_status (task_id t) PENDING None running
           /\ task_assignments (fst out) = task_assignments s
     end.
Proof.
  intros out. subst out. unfold schedule_task, _assign_task_to_node.
  destruct (_select_optimal_ai_node t nodes) as [best|] eqn:Hsel.
  - pose proof (_send_task_to_node_true best reply) as Hsend.
    destruct (_send_task_to_node best reply) eqn:E; simpl.
    + split; [reflexivity|]. split; [|split; reflexivity].
      split; [|reflexivity]. intros _.
      destruct (proj1 Hsend eq_refl) as (Hh & Hp & status & Hr & Hs).
      exists best, status. auto.
    + split; [reflexivity|]. split; [|split; reflexivity].
      split; [discriminate|].
      intros (b & status & [= <-] & Hh & Hp & Hr & Hs).
      assert (false = true); [|discriminate]. apply Hsend. eauto.
  - simpl. split; [reflexivity|]. split; [|split; reflexivity].
    split; [discriminate|]. intros (b & status & Hb & _). discriminate Hb.
Qed.

End ScheduleFacts.

(** ** The failure counter *)

Section CounterFacts.
Import Agent Heartbeat.

Lemma total_registrations_cons (ev : list event) (trace : list (list event)) :
  total_registrations (ev :: trace)
  = ((if reregisters ev then 1 else 0) + total_registrations trace)%nat.
Proof.
  unfold total_registrations. simpl. destruct (reregisters ev); reflexivity.
Qed.

Lemma failed_heartbeats_cons (i : tick_input) (rest : list tick_input) :
  failed_heartbeats (i :: rest)
  = ((if hb_ok i then 0 else 1) + failed_heartbeats rest)%nat.
Proof.
  unfold failed_heartbeats. simpl. destruct (hb_ok i); reflexivity.
Qed.

Lemma counter_bounds (inputs : list tick_input) :
  forall c : Z,
    0 <= c <= 4 ->
    0 <= counter_after c inputs <= 4
    /\ 5 * Z.of_nat (total_registrations (loop c (map Some inputs)))
       + counter_after c inputs
       <= Z.of_nat (failed_heartbeats inputs) + c.
Proof.
  induction inputs as [|i rest IH]; intros c Hc.
  - simpl. unfold total_registrations, failed_heartbeats. simpl. lia.
  - cbn [map counter_after]. rewrite loop_cons, total_registrations_cons,
      failed_heartbeats_cons.
    destruct (tick_cases c i) as [(H & E)|[(H & Hlt & E)|(H & Hge & E)]];
      rewrite E, H; cbn [fst snd reregisters existsb is_register orb].
    + destruct (IH 0 ltac:(lia)) as [Hr Hb]. split; [exact Hr|]. lia.
    + destruct (IH (c + 1) ltac:(lia)) as [Hr Hb]. split; [exact Hr|]. lia.
    + destruct (IH 0 ltac:(lia)) as [Hr Hb]. split; [exact Hr|]. lia.
Qed.

(** X17: however the heartbeats turn out, the failure counter is between
    0 and 4 after every tick, and five times the number of
    re-registrations never exceeds the number of failed heartbeats. *)
Theorem failure_counter_bounds (inputs : list tick_input) :
  0 <= counter_after 0 inputs <= 4
  /\ 5 * Z.of_nat (total_registrations (main_loop true (map Some inputs)))
     <= Z.of_nat (failed_heartbeats inputs).
Proof.
  destruct (counter_bounds inputs 0 ltac:(lia)) as [Hr Hb].
  split; [exact Hr|]. unfold main_loop. lia.
Qed.

Lemma outage_period (inputs : list tick_input) :
  Forall (fun i => hb_ok i = false) inputs ->
  forall (c : Z) (k : nat) (ev : list event),
    0 <= c <= 4 ->
    loop c (map Some inputs) !! k = Some ev ->
    reregisters ev = ((Z.of_nat k + 1 + c) mod 5 =? 0).
Proof.
  induction 1 as [|i rest Hi _ IH]; intros c k ev Hc Hk; [discriminate|].
  cbn [map] in Hk. rewrite loop_cons in Hk.
  destruct (tick_cases c i) as [(H & E)|[(H & Hlt & E)|(H & Hge & E)]];
    try congruence; rewrite E in Hk; cbn [fst snd] in Hk.
  - destruct k as [|k']; simpl in Hk.
    + inversion Hk; subst. simpl. symmetry. apply Z.eqb_neq.
      rewrite Z.mod_small; lia.
    + rewrite (IH (c + 1) k' ev ltac:(lia) Hk). f_equal. f_equal. lia.
  - destruct k as [|k']; simpl in Hk.
    + inversion Hk; subst. simpl. symmetry. apply Z.eqb_eq.
      assert (c = 4) as -> by lia. reflexivity.
    + rewrite (IH 0 k' ev ltac:(lia) Hk).
      assert (c = 4) as -> by lia.
      replace (Z.of_nat (S k') + 1 + 4) with (Z.of_nat k' + 1 + 0 + 1 * 5) by lia.
      now rewrite Z.mod_add.
Qed.

(** X18: during an outage, when every heartbeat fails, the agent
    re-registers on every fifth tick and on no other. *)
Theorem outage_reregisters_every_fifth_tick (inputs : list tick_input)
    (k : nat) (ev : list event) :
  Forall (fun i => hb_ok i = false) inputs ->
  main_loop true (map Some inputs) !! k = Some ev ->
  reregisters ev = ((Z.of_nat k + 1) mod 5 =? 0).
Proof.
  intros Hall Hk. unfold main_loop in Hk.
  rewrite (outage_period inputs Hall 0 k ev ltac:(lia) Hk).
  f_equal. f_equal. lia.
Qed.

End CounterFacts.

(** ** Further worked instances *)

Section MoreInstances.
Import Power Monitor Sorting Scheduler Agent Buffers Cache Heartbeat.
Import Samples MoreSamples.

(** With bound 2, the CPU buffer holds the last two of three CPU samples. *)
Lemma metrics_buffer_keeps_latest_witness :
  get_metrics (add_samples (new_buffer 2) four_samples) "cpu_usage"
  = py_last 2
      (List.filter (fun x => bool_decide (metric_type x = "cpu_usage"%string))
                   four_samples)
  /\ Z.of_nat (length (get_metrics (add_samples (new_buffer 2) four_samples)
                                   "cpu_usage")) <= 2.
Proof.
  apply (metrics_buffer_keeps_latest 2 four_samples "cpu_usage"). reflexivity.
Defined.

(** With bound 2, the history holds the last two of three records. *)
Lemma task_history_keeps_latest_witness :
  task_history (record_tasks {| max_history := 2; task_history := [] |}
                             three_records)
  = py_last 2 three_records.
Proof.
  apply (task_history_keeps_latest 2 three_records). reflexivity.
Defined.

(** Plugged in and idle for 20 minutes: the advice is that the system is
    ready, and so says the flag. *)
Lemma ready_advice_implies_ready_witness :
  ready_for_ai (snd (get_ai_compute_readiness idle_monitor probes_plugged))
  = true.
Proof.
  apply (ready_advice_implies_ready idle_monitor probes_plugged).
  - reflexivity.
  - vm_compute. left. reflexivity.
Defined.

(** A laptop in use scores at most 65. *)
Lemma user_active_limits_readiness_witness :
  Monitor.readiness_score
    (snd (get_ai_compute_readiness (init 0) probes_low_battery)) <= 65.
Proof.
  apply (user_active_limits_readiness (init 0) probes_low_battery).
  reflexivity.
Defined.

(** Plugged in and ready: five concurrent tasks are allowed. *)
Lemma ready_limits_above_lowest_witness :
  2 <= Power.max_concurrent_tasks
         (limits (snd (get_ai_compute_readiness idle_monitor probes_plugged))).
Proof.
  apply (ready_limits_above_lowest idle_monitor probes_plugged);
    reflexivity.
Defined.

(** An idle monitor sampled quiet at time 1200 reports 1200 s of idleness. *)
Lemma idle_is_sticky_witness :
  idle_duration
    (snd (detect_idle_state idle_monitor
            {| sampled := Some quiet_reading; clock := 1200 |}))
  = (1200 - 0)%Q.
Proof.
  apply (idle_is_sticky idle_monitor quiet_reading 1200 0); reflexivity.
Defined.

(** A report fetched at time 5 is served from the cache at time 20; the
    difference of these stamps is exact. *)
Lemma get_ai_readiness_round_trip_witness :
  let out := _get_ai_readiness Qminus empty_cache "b" 5 (Some node_b)
               (FetchReply 200 (Some (Some ready_report))) in
  _get_ai_readiness Qminus (fst out) "b" 20 None FetchError
  = (fst out, Some ready_report).
Proof.
  apply (get_ai_readiness_round_trip Qminus empty_cache "b" 5 node_b
           (Some ready_report)).
  - eexists. reflexivity.
  - eexists. reflexivity.
  - intros c tc H. unfold empty_cache in H. rewrite lookup_empty in H.
    discriminate H.
  - vm_compute. reflexivity.
Defined.

(** Node b is the one candidate of the scan and is selected. *)
Lemma selected_node_is_ready_witness :
  candidate_of Qminus empty_cache registry_scan
    (annotate node_b ready_report).
Proof.
  apply (selected_node_is_ready Qminus empty_cache registry_scan task_low).
  vm_compute. reflexivity.
Defined.

(** Ten failed heartbeats: the tenth tick re-registers. *)
Lemma outage_reregisters_every_fifth_tick_witness :
  reregisters [Heartbeat false; Register false]
  = ((Z.of_nat 9 + 1) mod 5 =? 0).
Proof.
  apply (outage_reregisters_every_fifth_tick (replicate 10 failing) 9%nat).
  - repeat constructor.
  - reflexivity.
Defined.

End MoreInstances.

(** ** Accepted requests *)

Section AcceptedFacts.
Import Power Monitor Agent Heartbeat Samples MoreSamples.

(** X20: a request that arrives while the machine is ready reaches the
    engine exactly once, with the compute limits of the current power state
    attached; the answer is completed with the result and the limits used,
    or failed with the text of the exception; either way the outcome is
    recorded in the task history with the same status and duration. *)
Theorem execute_task_accepted (Res : Type)
    (process_task : task_data -> Res + string)
    (m : monitor) (p : probes) (td : task_data) (start_time end_time : Q) :
  let readiness := snd (get_ai_compute_readiness m p) in
  let out := execute_task process_task m p td start_time end_time in
  let td' := {| td_id := td_id td; td_body := td_body td;
                td_compute_limits := Some (limits readiness) |} in
  let duration := (end_time - start_time)%Q in
  ready_for_ai readiness = true ->
  limits readiness = get_compute_limits (p_battery_limits p)
  /\ match process_task td' with
     | inl result =>
         snd (fst out) =
           [("status"%string, VStr "completed");
            ("result"%string, VResult result);
            ("duration"%string, VNum duration);
            ("compute_limits_used"%string, VLimits (limits readiness))]
         /\ snd out = [ProcessTask td'; RecordTask (td_id td) "completed" duration]
     | inr e =>
         snd (fst out) =
           [("status"%string, VStr "failed");
            ("error"%string, VStr e);
            ("duration"%string, VNum duration)]
         /\ snd out = [ProcessTask td'; RecordTask (td_id td) "failed" duration]
     end.
Proof.
  intros readiness out td' duration Hr.
  split; [apply (readiness_fields m p)|].
  subst readiness out td' duration. unfold execute_task.
  destruct (get_ai_compute_readiness m p) as [m' r]. simpl in *.
  rewrite Hr. simpl. destruct (process_task _); simpl; auto.
Qed.

(** Plugged in and idle: the request runs with the limits 90/90/5. *)
Lemma execute_task_accepted_witness :
  snd (execute_task echo_engine idle_monitor probes_plugged request 100 101)
  = [ProcessTask
       {| td_id := Some "t1"%string; td_body := "prompt";
          td_compute_limits :=
            Some {| max_cpu_usage := 90; max_memory_usage := 90;
                    Power.max_concurrent_tasks := 5 |} |};
     RecordTask (Some "t1"%string) "completed" (101 - 100)%Q].
Proof.
  exact (proj2 (proj2
    (execute_task_accepted string echo_engine idle_monitor probes_plugged
       request 100 101 eq_refl))).
Defined.

(** The counter that [loop] carries from one part of a run to the next is
    [counter_after]. *)
Lemma loop_app_counter (l1 l2 : list tick_input) :
  forall c : Z,
    loop c (map Some (l1 ++ l2))
    = loop c (map Some l1) ++ loop (counter_after c l1) (map Some l2).
Proof.
  induction l1 as [|i rest IH]; intros c; [reflexivity|].
  cbn [app map counter_after]. rewrite !loop_cons. simpl. now rewrite IH.
Qed.

End AcceptedFacts.
